(** * fetch_github_org_repos.py: paginated fetching with credential rotation

    A shallow embedding of [fetch_github_org_repos.py].  The GraphQL server
    is simulated by two queues of scripted responses, one answering the
    repository-listing query and one answering the pull-request-listing
    query; every [requests.post] takes the next response of the queue of its
    query.  When a queue is empty the call has nothing to return and the run
    is [Blocked]: this is how the unbounded retry loops of the program show
    up in a terminating model. *)

From Stdlib Require Import List String Ascii ZArith Arith Lia Bool.
Import ListNotations.

Local Set Warnings "-register-all".
Local Open Scope string_scope.
Local Open Scope list_scope.

(** ** JSON values, as [response.json()] returns them *)

Inductive json : Type :=
| JNull
| JBool (b : bool)
| JNum (n : Z)
| JStr (s : string)
| JArr (items : list json)
| JObj (members : list (string * json)).

(** ** Exceptions

    Every class below derives from Python's [Exception]. [RequestException]
    stands for [requests.exceptions.RequestException] and its subclasses
    (connection errors, timeouts, [HTTPError] of [raise_for_status]). *)

Inductive exn : Type :=
| RequestException
| TypeError
| KeyError
| AttributeError
| IndexError
| ValueError
| OSError.

(** The value of a Python expression: a value or a raised exception. *)
Inductive py (A : Type) : Type :=
| Val (a : A)
| Exc (e : exn).
Arguments Val {A} a.
Arguments Exc {A} e.

Definition bind {A B : Type} (m : py A) (k : A -> py B) : py B :=
  match m with
  | Val a => k a
  | Exc e => Exc e
  end.

Notation "x <- m ;; k" := (bind m (fun x => k))
  (at level 61, m at next level, right associativity).

(** The clauses of a [try] statement used by the program. *)
Inductive except_clause : Type :=
| ExceptRequestException
| ExceptException.

Definition catches (c : except_clause) (e : exn) : bool :=
  match c, e with
  | ExceptRequestException, RequestException => true
  | ExceptRequestException, _ => false
  | ExceptException, _ => true
  end.

(** The first clause that matches handles the exception; with none, it
    propagates. *)
Fixpoint dispatch {A : Type} (clauses : list (except_clause * A)) (e : exn)
  : option A :=
  match clauses with
  | [] => None
  | (c, a) :: more => if catches c e then Some a else dispatch more e
  end.

(** ** The Python operations the program applies to JSON values *)

Module Py.

Fixpoint lookup (key : string) (members : list (string * json)) : option json :=
  match members with
  | [] => None
  | (k, v) :: more => if String.eqb key k then Some v else lookup key more
  end.

(** [bool(x)] *)
Definition truthy (x : json) : bool :=
  match x with
  | JNull => false
  | JBool b => b
  | JNum n => negb (Z.eqb n 0)
  | JStr s => negb (String.eqb s "")
  | JArr items => match items with [] => false | _ => true end
  | JObj members => match members with [] => false | _ => true end
  end.

(** [x.get(key, default)]: only a dict has the method. *)
Definition get (x : json) (key : string) (default : json) : py json :=
  match x with
  | JObj members =>
      match lookup key members with
      | Some v => Val v
      | None => Val default
      end
  | _ => Exc AttributeError
  end.

(** [x[key]] for a string key. *)
Definition getitem (x : json) (key : string) : py json :=
  match x with
  | JObj members =>
      match lookup key members with
      | Some v => Val v
      | None => Exc KeyError
      end
  | _ => Exc TypeError
  end.

Fixpoint chars (s : string) : list json :=
  match s with
  | EmptyString => []
  | String c s' => JStr (String c EmptyString) :: chars s'
  end.

(** [x[0]] *)
Definition getitem0 (x : json) : py json :=
  match x with
  | JArr items =>
      match items with
      | v :: _ => Val v
      | [] => Exc IndexError
      end
  | JStr s =>
      match chars s with
      | v :: _ => Val v
      | [] => Exc IndexError
      end
  | JObj _ => Exc KeyError
  | _ => Exc TypeError
  end.

Definition eq_str (x : json) (s : string) : bool :=
  match x with
  | JStr t => String.eqb t s
  | _ => false
  end.

Fixpoint is_substring (sub s : string) : bool :=
  String.prefix sub s
  || match s with
     | EmptyString => false
     | String _ s' => is_substring sub s'
     end.

(** [key in x] *)
Definition contains (key : string) (x : json) : py bool :=
  match x with
  | JObj members =>
      Val (match lookup key members with Some _ => true | None => false end)
  | JArr items => Val (existsb (fun v => eq_str v key) items)
  | JStr s => Val (is_substring key s)
  | _ => Exc TypeError
  end.

(** The items a [for] loop (or a comprehension) visits. *)
Definition iter (x : json) : py (list json) :=
  match x with
  | JArr items => Val items
  | JObj members => Val (map (fun kv => JStr (fst kv)) members)
  | JStr s => Val (chars s)
  | _ => Exc TypeError
  end.

End Py.

(** ** The simulated server and the observable events *)

Inductive response : Type :=
| HttpJson (data : json)      (* a 2xx answer whose body parses to [data] *)
| HttpRaises (e : exn).       (* post, raise_for_status or json() raises *)

Inductive query : Type :=
| RepositoriesQuery
| PullRequestsQuery.

Inductive message : Type :=
| GraphQLErrorsRepo (repo_name : json) (org_name : string) (errors : json)
| NetworkErrorRepo (repo_name : json) (org_name : string) (e : exn)
| UnexpectedErrorRepo (repo_name : json) (org_name : string) (e : exn)
| GraphQLErrorsOrg (org_name : string) (errors : json)
| NetworkErrorOrg (org_name : string) (e : exn)
| UnexpectedErrorOrg (org_name : string) (e : exn)
| EntryIsNone (org_name : string)
| ErrorProcessing (repo_name : json) (org_name : string) (e : exn)
| SwitchedToToken (index : nat)
| FetchedPage (repo_name : json) (open_count closed_count : nat)
| FetchingRepositories (org_name : string)
| NoRepositoriesFound (org_name : string)
| ProcessingOrganization (org_name : string)
| DataWritten (org_name : string) (csv_filename : string)
| NoDataFetched (org_name : string).

Inductive event : Type :=
| Post (headers : list (string * string)) (q : query)
       (variables : list (string * json))
| LogError (m : message)      (* logging.error, mirrored by print *)
| Print (m : message)
| Sleep.

(** The process-wide mutable state: the token index, and the events so far. *)
Record state : Type := mkState {
  token_index : nat;
  trace : list event
}.

Definition emit (e : event) (st : state) : state :=
  mkState (token_index st) (trace st ++ [e]).

(** How a call ends. [Blocked]: the server has no scripted response left. *)
Inductive outcome (A : Type) : Type :=
| Returned (a : A) (st : state) (pr_left : list response)
| Raised (e : exn) (st : state) (pr_left : list response)
| Blocked (st : state).
Arguments Returned {A} a st pr_left.
Arguments Raised {A} e st pr_left.
Arguments Blocked {A} st.

(** Lines 17-22: the module refuses to load with an empty setting. *)
Definition validate_configuration (tokens : list string) (server_url : string)
    (org_names : list string) : py unit :=
  match tokens with
  | [] => Exc ValueError
  | _ =>
      if String.eqb server_url "" then Exc ValueError
      else match org_names with
           | [] => Exc ValueError
           | _ => Val tt
           end
  end.

(** ** Normalizing one repository record (lines 197-211)

    One definition per local variable of the source, named after it. *)

Definition row : Type := list (string * json).

Module Field.

Definition name (repo : json) : py json :=
  Py.get repo "name" (JStr "N/A").

Definition is_private (repo : json) : py json :=
  v <- Py.get repo "isPrivate" (JBool false) ;;
  Val (JStr (if Py.truthy v then "Private" else "Public")).

Definition disk_usage (repo : json) : py json :=
  Py.get repo "diskUsage" (JStr "N/A").

Definition default_branch (repo : json) : py json :=
  b <- Py.get repo "defaultBranchRef" (JObj []) ;;
  Py.get b "name" (JStr "N/A").

Definition history (repo : json) : py json :=
  b <- Py.get repo "defaultBranchRef" (JObj []) ;;
  t <- Py.get b "target" (JObj []) ;;
  Py.get t "history" (JObj []).

Definition total_commits (repo : json) : py json :=
  h <- history repo ;;
  Py.get h "totalCount" (JNum 0).

Definition last_pusher (repo : json) : py json :=
  h <- history repo ;;
  n <- Py.get h "nodes" (JArr [JObj []]) ;;
  first <- Py.getitem0 n ;;
  a <- Py.get first "author" (JObj []) ;;
  u <- Py.get a "user" (JObj []) ;;
  Py.get u "login" (JStr "N/A").

Definition total_count (key : string) (repo : json) : py json :=
  c <- Py.get repo key (JObj []) ;;
  Py.get c "totalCount" (JNum 0).

Definition open_issues : json -> py json := total_count "openIssues".
Definition closed_issues : json -> py json := total_count "closedIssues".
Definition total_releases : json -> py json := total_count "releases".
Definition total_tags : json -> py json := total_count "refs".

(** The list comprehension of line 206. *)
Fixpoint language_names (langs : list json) : py (list json) :=
  match langs with
  | [] => Val []
  | lang :: more =>
      n <- Py.get lang "name" (JStr "N/A") ;;
      ns <- language_names more ;;
      Val (n :: ns)
  end.

(** [", ".join(names)]: every item has to be a [str]. *)
Fixpoint join (names : list json) : py string :=
  match names with
  | [] => Val ""
  | JStr s :: more =>
      match more with
      | [] => Val s
      | _ => t <- join more ;; Val (s ++ ", " ++ t)%string
      end
  | _ :: _ => Exc TypeError
  end.

Definition languages (repo : json) : py json :=
  l <- Py.get repo "languages" (JObj []) ;;
  n <- Py.get l "nodes" (JArr []) ;;
  langs <- Py.iter n ;;
  names <- language_names langs ;;
  s <- join names ;;
  Val (JStr s).

Definition last_pushed_at (repo : json) : py json :=
  Py.get repo "pushedAt" (JStr "N/A").

Definition last_updated_at (repo : json) : py json :=
  Py.get repo "updatedAt" (JStr "N/A").

Definition is_archived (repo : json) : py json :=
  v <- Py.get repo "isArchived" (JBool false) ;;
  Val (JStr (if Py.truthy v then "Yes" else "No")).

End Field.

Section Program.

(** The credential set; [validate_configuration] guarantees it is not
    empty, and [switch_token] keeps the index below its length. *)
Variable GITHUB_TOKENS : list string.

(** ** Credential rotation *)

(** Lines 35-41.  The index is in range in every state the program reaches
    (0 at import, then reduced modulo the length), so the default of [nth],
    which stands where Python raises [IndexError], is never taken. *)
Definition get_headers (st : state) : list (string * string) * state :=
  ([("Authorization",
     ("Bearer " ++ nth (token_index st) GITHUB_TOKENS "")%string)], st).

(** Lines 43-48.  The length is not 0: the module does not load with an
    empty token list.  [logging.info] is below the level of the log. *)
Definition switch_token (st : state) : state :=
  let i := (token_index st + 1) mod List.length GITHUB_TOKENS in
  emit (Print (SwitchedToToken i)) (mkState i (trace st)).

(** [requests.post(...)] with the current headers. *)
Definition post (q : query) (variables : list (string * json)) (st : state)
  : state :=
  let '(headers, st) := get_headers st in
  emit (Post headers q variables) st.

(** ** The pull-request counter *)

Record pr_locals : Type := mkLocals {
  open_count : nat;
  closed_count : nat;
  cursor : json
}.

(** How the body of the [try] of one iteration ends. *)
Inductive signal : Type :=
| Continue (l : pr_locals) (st : state)
| Break (l : pr_locals) (st : state)
| Fallthrough (l : pr_locals) (st : state)
| Raise (e : exn) (l : pr_locals) (st : state).

(** Lines 85-89; the counts reached when an item raises are kept. *)
Fixpoint count_states (pull_requests : list json) (open closed : nat)
  : nat * nat * option exn :=
  match pull_requests with
  | [] => (open, closed, None)
  | pr :: more =>
      match Py.getitem pr "state" with
      | Exc e => (open, closed, Some e)
      | Val s =>
          if Py.eq_str s "CLOSED" || Py.eq_str s "MERGED"
          then count_states more open (S closed)
          else if Py.eq_str s "OPEN"
          then count_states more (S open) closed
          else count_states more open closed
      end
  end.

Definition pull_requests_of (data : json) : py json :=
  d <- Py.getitem data "data" ;;
  r <- Py.getitem d "repository" ;;
  Py.getitem r "pullRequests".

(** Lines 78-96, for a response whose body is [data]. *)
Definition pr_body (repo_name : json) (org_name : string) (data : json)
    (l : pr_locals) (st : state) : signal :=
  match Py.contains "errors" data with
  | Exc e => Raise e l st
  | Val true =>
      match Py.getitem data "errors" with
      | Exc e => Raise e l st
      | Val errors =>
          Continue l
            (switch_token
               (emit (LogError (GraphQLErrorsRepo repo_name org_name errors)) st))
      end
  | Val false =>
      match (p <- pull_requests_of data ;; n <- Py.getitem p "nodes" ;; Py.iter n) with
      | Exc e => Raise e l st
      | Val pull_requests =>
          let '(o, c, failure) :=
            count_states pull_requests (open_count l) (closed_count l) in
          let l1 := mkLocals o c (cursor l) in
          match failure with
          | Some e => Raise e l1 st
          | None =>
              let st1 := emit (Print (FetchedPage repo_name o c)) st in
              match (p <- pull_requests_of data ;; i <- Py.getitem p "pageInfo" ;;
                     Py.getitem i "hasNextPage") with
              | Exc e => Raise e l1 st1
              | Val has_next =>
                  if negb (Py.truthy has_next) then Break l1 st1
                  else
                    match (p <- pull_requests_of data ;;
                           i <- Py.getitem p "pageInfo" ;;
                           Py.getitem i "endCursor") with
                    | Exc e => Raise e l1 st1
                    | Val end_cursor =>
                        Fallthrough (mkLocals o c end_cursor) (emit Sleep st1)
                    end
              end
          end
      end
  end.

Definition pr_variables (repo_name : json) (org_name : string) (cursor : json)
  : list (string * json) :=
  [("org", JStr org_name); ("repo", repo_name); ("cursor", cursor)].

(** Lines 73-76 followed by the body. *)
Definition pr_try (repo_name : json) (org_name : string) (r : response)
    (l : pr_locals) (st : state) : signal :=
  let st1 := post PullRequestsQuery (pr_variables repo_name org_name (cursor l)) st in
  match r with
  | HttpRaises e => Raise e l st1
  | HttpJson data => pr_body repo_name org_name data l st1
  end.

(** Lines 98-105. *)
Definition pr_except (repo_name : json) (org_name : string) (e : exn)
  : option message :=
  dispatch
    [(ExceptRequestException, NetworkErrorRepo repo_name org_name e);
     (ExceptException, UnexpectedErrorRepo repo_name org_name e)] e.

(** The [while True] of lines 71-105, one scripted response per iteration. *)
Fixpoint pr_loop (repo_name : json) (org_name : string)
    (responses : list response) (l : pr_locals) (st : state)
  : outcome (nat * nat) :=
  match responses with
  | [] => Blocked st
  | r :: rest =>
      match pr_try repo_name org_name r l st with
      | Continue l' st' => pr_loop repo_name org_name rest l' st'
      | Break l' st' => Returned (open_count l', closed_count l') st' rest
      | Fallthrough l' st' => pr_loop repo_name org_name rest l' st'
      | Raise e l' st' =>
          match pr_except repo_name org_name e with
          | Some m =>
              pr_loop repo_name org_name rest l'
                (switch_token (emit (LogError m) st'))
          | None => Raised e st' rest
          end
      end
  end.

Definition fetch_pull_requests_count (repo_name : json) (org_name : string)
    (responses : list response) (st : state) : outcome (nat * nat) :=
  pr_loop repo_name org_name responses (mkLocals 0 0 JNull) st.

(** ** The repository enumerator *)

(** Lines 197-202: the fields read before the pull requests are counted. *)
Definition fields_before (repo : json)
  : py (json * json * json * json * json * json) :=
  name <- Field.name repo ;;
  is_private <- Field.is_private repo ;;
  disk_usage <- Field.disk_usage repo ;;
  default_branch <- Field.default_branch repo ;;
  total_commits <- Field.total_commits repo ;;
  last_pusher <- Field.last_pusher repo ;;
  Val (name, is_private, disk_usage, default_branch, total_commits, last_pusher).

(** Lines 204-211: the fields read after the pull requests are counted. *)
Definition fields_after (repo : json)
  : py (json * json * json * json * json * json * json * json) :=
  open_issues <- Field.open_issues repo ;;
  closed_issues <- Field.closed_issues repo ;;
  languages <- Field.languages repo ;;
  total_releases <- Field.total_releases repo ;;
  total_tags <- Field.total_tags repo ;;
  last_pushed_at <- Field.last_pushed_at repo ;;
  last_updated_at <- Field.last_updated_at repo ;;
  is_archived <- Field.is_archived repo ;;
  Val (open_issues, closed_issues, languages, total_releases, total_tags,
       last_pushed_at, last_updated_at, is_archived).

(** Lines 213-230. *)
Definition repo_info
    (before : json * json * json * json * json * json)
    (open_pull_requests closed_pull_requests : nat)
    (after : json * json * json * json * json * json * json * json) : row :=
  let '(name, is_private, disk_usage, default_branch, total_commits,
        last_pusher) := before in
  let '(open_issues, closed_issues, languages, total_releases, total_tags,
        last_pushed_at, last_updated_at, is_archived) := after in
  [("Repository Name", name);
   ("Visibility", is_private);
   ("Size (KB)", disk_usage);
   ("Default Branch", default_branch);
   ("Total Commits", total_commits);
   ("Last Pusher", last_pusher);
   ("Open Pull Requests", JNum (Z.of_nat open_pull_requests));
   ("Closed Pull Requests", JNum (Z.of_nat closed_pull_requests));
   ("Open Issues", open_issues);
   ("Closed Issues", closed_issues);
   ("Languages", languages);
   ("Total Releases", total_releases);
   ("Total Tags", total_tags);
   ("Last Pushed At", last_pushed_at);
   ("Last Updated At", last_updated_at);
   ("Archived", is_archived)].

(** How the processing of the records of a page ends; the rows appended
    to [repo_details] so far are kept in every case. *)
Inductive page_outcome : Type :=
| PageDone (repo_details : list row) (st : state) (pr_left : list response)
| PageRaised (e : exn) (repo_details : list row) (st : state)
             (pr_left : list response)
| PageBlocked (st : state).

(** Lines 233-235: the handler reads [repo.get('name', 'N/A')] again. *)
Definition repo_except (org_name : string) (repo : json) (e : exn)
    (repo_details : list row) (st : state) (pr_left : list response)
  : page_outcome :=
  match dispatch [(ExceptException, tt)] e with
  | None => PageRaised e repo_details st pr_left
  | Some _ =>
      match Py.get repo "name" (JStr "N/A") with
      | Exc e' => PageRaised e' repo_details st pr_left
      | Val n =>
          PageDone repo_details
            (emit (LogError (ErrorProcessing n org_name e)) st) pr_left
      end
  end.

(** Lines 196-235, for an entry that is not [None]. *)
Definition process_repo (org_name : string) (repo : json)
    (pr_responses : list response) (repo_details : list row) (st : state)
  : page_outcome :=
  match fields_before repo with
  | Exc e => repo_except org_name repo e repo_details st pr_responses
  | Val before =>
      let name := fst (fst (fst (fst (fst before)))) in
      match fetch_pull_requests_count name org_name pr_responses st with
      | Blocked st' => PageBlocked st'
      | Raised e st' pr_left =>
          repo_except org_name repo e repo_details st' pr_left
      | Returned (open_pull_requests, closed_pull_requests) st' pr_left =>
          match fields_after repo with
          | Exc e => repo_except org_name repo e repo_details st' pr_left
          | Val after =>
              PageDone
                (repo_details ++
                 [repo_info before open_pull_requests closed_pull_requests after])
                st' pr_left
          end
      end
  end.

(** The [for] of lines 190-235. *)
Fixpoint process_repos (org_name : string) (repos : list json)
    (pr_responses : list response) (repo_details : list row) (st : state)
  : page_outcome :=
  match repos with
  | [] => PageDone repo_details st pr_responses
  | repo :: more =>
      match repo with
      | JNull =>
          process_repos org_name more pr_responses repo_details
            (emit (LogError (EntryIsNone org_name)) st)
      | _ =>
          match process_repo org_name repo pr_responses repo_details st with
          | PageDone repo_details' st' pr_left =>
              process_repos org_name more pr_left repo_details' st'
          | stopped => stopped
          end
      end
  end.

Record org_locals : Type := mkOrgLocals {
  org_cursor : json;
  repo_details : list row
}.

Inductive org_signal : Type :=
| OrgContinue (l : org_locals) (st : state) (pr_left : list response)
| OrgBreak (l : org_locals) (st : state) (pr_left : list response)
| OrgFallthrough (l : org_locals) (st : state) (pr_left : list response)
| OrgRaise (e : exn) (l : org_locals) (st : state) (pr_left : list response)
| OrgBlocked (st : state).

Definition repositories_of (data : json) : py json :=
  d <- Py.get data "data" (JObj []) ;;
  o <- Py.get d "organization" (JObj []) ;;
  Py.get o "repositories" (JObj []).

(** Lines 181-184: [repos], [has_next_page] and the new [cursor]. *)
Definition page_fields (data : json) : py (json * json * json) :=
  r <- repositories_of data ;;
  repos <- Py.get r "nodes" (JArr []) ;;
  r' <- repositories_of data ;;
  page_info <- Py.get r' "pageInfo" (JObj []) ;;
  has_next_page <- Py.get page_info "hasNextPage" (JBool false) ;;
  end_cursor <- Py.get page_info "endCursor" JNull ;;
  Val (repos, has_next_page, end_cursor).

(** Lines 175-239, for a response whose body is [data]. *)
Definition org_body (org_name : string) (data : json)
    (pr_responses : list response) (l : org_locals) (st : state)
  : org_signal :=
  match Py.contains "errors" data with
  | Exc e => OrgRaise e l st pr_responses
  | Val true =>
      match Py.getitem data "errors" with
      | Exc e => OrgRaise e l st pr_responses
      | Val errors =>
          OrgContinue l
            (switch_token
               (emit (LogError (GraphQLErrorsOrg org_name errors)) st))
            pr_responses
      end
  | Val false =>
      match page_fields data with
      | Exc e => OrgRaise e l st pr_responses
      | Val (repos, has_next_page, end_cursor) =>
          let l1 := mkOrgLocals end_cursor (repo_details l) in
          if negb (Py.truthy repos)
          then OrgBreak l1 (emit (Print (NoRepositoriesFound org_name)) st)
                 pr_responses
          else
            match Py.iter repos with
            | Exc e => OrgRaise e l1 st pr_responses
            | Val items =>
                match process_repos org_name items pr_responses
                        (repo_details l) st with
                | PageBlocked st' => OrgBlocked st'
                | PageRaised e details st' pr_left =>
                    OrgRaise e (mkOrgLocals end_cursor details) st' pr_left
                | PageDone details st' pr_left =>
                    let l2 := mkOrgLocals end_cursor details in
                    if negb (Py.truthy has_next_page)
                    then OrgBreak l2 st' pr_left
                    else OrgFallthrough l2 (emit Sleep st') pr_left
                end
            end
      end
  end.

Definition org_variables (org_name : string) (cursor : json)
  : list (string * json) :=
  [("org", JStr org_name); ("cursor", cursor)].

(** Lines 170-173 followed by the body. *)
Definition org_try (org_name : string) (r : response)
    (pr_responses : list response) (l : org_locals) (st : state)
  : org_signal :=
  let st1 := post RepositoriesQuery (org_variables org_name (org_cursor l)) st in
  match r with
  | HttpRaises e => OrgRaise e l st1 pr_responses
  | HttpJson data => org_body org_name data pr_responses l st1
  end.

(** Lines 241-248. *)
Definition org_except (org_name : string) (e : exn) : option message :=
  dispatch
    [(ExceptRequestException, NetworkErrorOrg org_name e);
     (ExceptException, UnexpectedErrorOrg org_name e)] e.

(** The [while True] of lines 168-248.  The value returned holds the rows
    and what is left of the queue of repository-listing responses. *)
Fixpoint org_loop (org_name : string) (responses : list response)
    (pr_responses : list response) (l : org_locals) (st : state)
  : outcome (list row * list response) :=
  match responses with
  | [] => Blocked st
  | r :: rest =>
      match org_try org_name r pr_responses l st with
      | OrgContinue l' st' pr_left => org_loop org_name rest pr_left l' st'
      | OrgBreak l' st' pr_left => Returned (repo_details l', rest) st' pr_left
      | OrgFallthrough l' st' pr_left => org_loop org_name rest pr_left l' st'
      | OrgRaise e l' st' pr_left =>
          match org_except org_name e with
          | Some m =>
              org_loop org_name rest pr_left l'
                (switch_token (emit (LogError m) st'))
          | None => Raised e st' pr_left
          end
      | OrgBlocked st' => Blocked st'
      end
  end.

Definition fetch_org_repos (org_name : string) (responses : list response)
    (pr_responses : list response) (st : state)
  : outcome (list row * list response) :=
  org_loop org_name responses pr_responses (mkOrgLocals JNull [])
    (emit (Print (FetchingRepositories org_name)) st).

(** ** The driver and the report (lines 252-272)

    A file is the list of the records [csv.DictWriter] was asked to write,
    each a list of cells; turning a record into a line of text is the [csv]
    module's business. *)

Definition fieldnames : list string :=
  ["Repository Name"; "Visibility"; "Size (KB)"; "Default Branch";
   "Total Commits"; "Last Pusher"; "Open Pull Requests";
   "Closed Pull Requests"; "Open Issues"; "Closed Issues"; "Languages";
   "Total Releases"; "Total Tags"; "Last Pushed At"; "Last Updated At";
   "Archived"].

(** [DictWriter._dict_to_list] with the default [extrasaction='raise'] and
    [restval='']. *)
Definition dict_to_list (names : list string) (rowdict : row) : py (list json) :=
  if existsb (fun kv => negb (existsb (String.eqb (fst kv)) names)) rowdict
  then Exc ValueError
  else Val (map (fun key =>
                   match Py.lookup key rowdict with
                   | Some v => v
                   | None => JStr ""
                   end) names).

(** [writer.writerows]: rows are written one by one until one raises. *)
Fixpoint writerows (names : list string) (rows : list row)
  : list (list json) * option exn :=
  match rows with
  | [] => ([], None)
  | r :: more =>
      match dict_to_list names r with
      | Exc e => ([], Some e)
      | Val cells =>
          let '(written, failure) := writerows names more in
          (cells :: written, failure)
      end
  end.

Definition writeheader (names : list string) : list json := map JStr names.

Definition files : Type := list (string * list (list json)).

Inductive main_outcome : Type :=
| MainDone (fs : files) (st : state) (org_left pr_left : list response)
| MainRaised (e : exn) (fs : files) (st : state)
| MainBlocked (fs : files) (st : state).

(** What the file system answers when the report of an organization is
    written: [open] raises [OSError] (no such directory, no permission); or
    the file opens and the write of record [n], the header being record 0,
    raises [OSError]; or every write succeeds. *)
Inductive disk_answer : Type :=
| OpenFails
| WriteFails (n : nat)
| Writable.

(** One iteration of the [for] of line 253, once [fetch_org_repos]
    has returned [repos]: the files, the state, and the exception that
    leaves [main], if any.  Nothing catches what [open] or the writer
    raise.  A file that was opened holds the records written before the
    exception. *)
Definition report (disk : string -> disk_answer) (org : string)
    (repos : list row) (fs : files) (st : state)
  : files * state * option exn :=
  match repos with
  | _ :: _ =>
      let csv_filename := (org ++ "_repo_details.csv")%string in
      match disk csv_filename with
      | OpenFails => (fs, st, Some OSError)
      | answer =>
          let '(written, failure) := writerows fieldnames repos in
          let records := writeheader fieldnames :: written in
          let '(accepted, failure) :=
            match answer with
            | WriteFails n =>
                (firstn n records,
                 if Nat.ltb n (List.length records) then Some OSError
                 else failure)
            | _ => (records, failure)
            end in
          let fs' := (csv_filename, accepted) :: fs in
          match failure with
          | Some e => (fs', st, Some e)
          | None => (fs', emit (Print (DataWritten org csv_filename)) st, None)
          end
      end
  | [] => (fs, emit (Print (NoDataFetched org)) st, None)
  end.

Fixpoint main_loop (disk : string -> disk_answer) (orgs : list string)
    (org_responses pr_responses : list response)
    (fs : files) (st : state) : main_outcome :=
  match orgs with
  | [] => MainDone fs st org_responses pr_responses
  | org :: more =>
      match fetch_org_repos org org_responses pr_responses
              (emit (Print (ProcessingOrganization org)) st) with
      | Blocked st' => MainBlocked fs st'
      | Raised e st' _ => MainRaised e fs st'
      | Returned (repos, org_left) st' pr_left =>
          match report disk org repos fs st' with
          | (fs', st'', Some e) => MainRaised e fs' st''
          | (fs', st'', None) => main_loop disk more org_left pr_left fs' st''
          end
      end
  end.

Variable ORG_NAMES : list string.

Definition main (disk : string -> disk_answer)
    (org_responses pr_responses : list response) : main_outcome :=
  main_loop disk ORG_NAMES org_responses pr_responses [] (mkState 0 []).

End Program.

(** ** Simulated listings and observations

    The vocabulary of the statements below: well-formed pages as the
    GraphQL server sends them, the two kinds of failed attempt, and what
    a run shows once the state is forgotten. *)

Definition pr_node (s : string) : json := JObj [("state", JStr s)].

(** A page of the pull-request listing with the given [nodes]. *)
Definition pr_page_of (nodes : list json) (end_cursor : json) (has_next : bool)
  : json :=
  JObj [("data", JObj [("repository", JObj [("pullRequests",
    JObj [("nodes", JArr nodes);
          ("pageInfo", JObj [("endCursor", end_cursor);
                             ("hasNextPage", JBool has_next)])])])])].

(** A page whose nodes carry the given state strings. *)
Definition pr_page (states : list string) (end_cursor : json) (has_next : bool)
  : json :=
  pr_page_of (map pr_node states) end_cursor has_next.

(** A listing of [length pages + 1] pages: only the last reports no next page. *)
Definition pr_listing (pages : list (list string * json)) (last : list string)
    (last_cursor : json) : list response :=
  map (fun p => HttpJson (pr_page (fst p) (snd p) true)) pages
  ++ [HttpJson (pr_page last last_cursor false)].

Definition all_states (pages : list (list string * json)) (last : list string)
  : list string :=
  List.concat (map fst pages) ++ last.

Definition count_open (states : list string) : nat :=
  List.length (filter (fun s => String.eqb s "OPEN") states).

Definition count_closed_or_merged (states : list string) : nat :=
  List.length
    (filter (fun s => String.eqb s "CLOSED" || String.eqb s "MERGED") states).

(** A soft failure: the body is an object with a top-level [errors] member.
    A transport failure: the HTTP call raises. *)
Inductive failed_attempt : response -> Prop :=
| soft_failure (members : list (string * json)) (errors : json) :
    Py.lookup "errors" members = Some errors ->
    failed_attempt (HttpJson (JObj members))
| transport_failure (e : exn) :
    failed_attempt (HttpRaises e).

(** What a caller sees of a call: the state (token index, log) forgotten. *)
Inductive observation (A : Type) : Type :=
| Value (a : A) (pr_left : list response)
| Failure (e : exn) (pr_left : list response)
| NoAnswer.
Arguments Value {A} a pr_left.
Arguments Failure {A} e pr_left.
Arguments NoAnswer {A}.

Definition observe {A : Type} (o : outcome A) : observation A :=
  match o with
  | Returned a _ pr_left => Value a pr_left
  | Raised e _ pr_left => Failure e pr_left
  | Blocked _ => NoAnswer
  end.

Definition is_post (q : query) (e : event) : bool :=
  match e, q with
  | Post _ RepositoriesQuery _, RepositoriesQuery => true
  | Post _ PullRequestsQuery _, PullRequestsQuery => true
  | _, _ => false
  end.

(** The number of requests of query [q] in a trace. *)
Definition posts (q : query) (t : list event) : nat :=
  List.length (filter (is_post q) t).

(** A body that takes the success path and reports no next page. *)
Definition exhaustion_page (data : json) : Prop :=
  Py.contains "errors" data = Val false /\
  exists has_next,
    (p <- pull_requests_of data ;; i <- Py.getitem p "pageInfo" ;;
     Py.getitem i "hasNextPage") = Val has_next /\
    Py.truthy has_next = false.

(** Two signals that differ in the state only. *)
Definition same_signal (s1 s2 : signal) : Prop :=
  match s1, s2 with
  | Continue l1 _, Continue l2 _ => l1 = l2
  | Break l1 _, Break l2 _ => l1 = l2
  | Fallthrough l1 _, Fallthrough l2 _ => l1 = l2
  | Raise e1 l1 _, Raise e2 l2 _ => e1 = e2 /\ l1 = l2
  | _, _ => False
  end.

Definition org_page (repos : list json) (end_cursor : json) (has_next : bool)
  : json :=
  JObj [("data", JObj [("organization", JObj [("repositories",
    JObj [("pageInfo", JObj [("endCursor", end_cursor);
                             ("hasNextPage", JBool has_next)]);
          ("nodes", JArr repos)])])])].

(** An entry of a [nodes] list of the GraphQL schema: an object or [null]. *)
Definition is_record (r : json) : bool :=
  match r with
  | JNull | JObj _ => true
  | _ => false
  end.

(** A one-page pull-request listing. *)
Definition final_pr_page (states : list string) : response :=
  HttpJson (pr_page states JNull false).

(** The events the pull-request counter emits. *)
Definition from_counter (e : event) : bool :=
  match e with
  | Post _ PullRequestsQuery _ => true
  | LogError (GraphQLErrorsRepo _ _ _) => true
  | LogError (NetworkErrorRepo _ _ _) => true
  | LogError (UnexpectedErrorRepo _ _ _) => true
  | Print (SwitchedToToken _) => true
  | Print (FetchedPage _ _ _) => true
  | Sleep => true
  | _ => false
  end.

Definition extends (st' st : state) : Prop :=
  exists added,
    trace st' = trace st ++ added /\ forallb from_counter added = true.

(** The log entries of the entries of a page that were skipped. *)
Definition is_skip (e : event) : bool :=
  match e with
  | LogError (EntryIsNone _) => true
  | LogError (ErrorProcessing _ _ _) => true
  | _ => false
  end.

Definition skipped (t : list event) : nat := List.length (filter is_skip t).

Definition signal_state (s : signal) : state :=
  match s with
  | Continue _ st | Break _ st | Fallthrough _ st | Raise _ _ st => st
  end.

Definition outcome_state {A : Type} (o : outcome A) : state :=
  match o with
  | Returned _ st _ | Raised _ st _ | Blocked st => st
  end.

Definition is_repo_info (r : row) : Prop :=
  exists before o c after, r = repo_info before o c after.

(** The pull-request fields of [r] are what a call of the counter for the
    repository of [r] returned, and that call ended on an exhaustion page. *)
Definition drained_summary (tokens : list string) (org_name : string) (r : row)
  : Prop :=
  exists name pr_responses st open closed st' pr_left consumed data,
    fetch_pull_requests_count tokens name org_name pr_responses st =
      Returned (open, closed) st' pr_left /\
    pr_responses = consumed ++ HttpJson data :: pr_left /\
    exhaustion_page data /\
    Py.lookup "Repository Name" r = Some name /\
    Py.lookup "Open Pull Requests" r = Some (JNum (Z.of_nat open)) /\
    Py.lookup "Closed Pull Requests" r = Some (JNum (Z.of_nat closed)).

(** Two outcomes that differ in the state only. *)
Definition same_page_outcome (p1 p2 : page_outcome) : Prop :=
  match p1, p2 with
  | PageDone d1 _ pr1, PageDone d2 _ pr2 => d1 = d2 /\ pr1 = pr2
  | PageRaised e1 d1 _ pr1, PageRaised e2 d2 _ pr2 =>
      e1 = e2 /\ d1 = d2 /\ pr1 = pr2
  | PageBlocked _, PageBlocked _ => True
  | _, _ => False
  end.

Definition same_org_signal (s1 s2 : org_signal) : Prop :=
  match s1, s2 with
  | OrgContinue l1 _ pr1, OrgContinue l2 _ pr2 => l1 = l2 /\ pr1 = pr2
  | OrgBreak l1 _ pr1, OrgBreak l2 _ pr2 => l1 = l2 /\ pr1 = pr2
  | OrgFallthrough l1 _ pr1, OrgFallthrough l2 _ pr2 => l1 = l2 /\ pr1 = pr2
  | OrgRaise e1 l1 _ pr1, OrgRaise e2 l2 _ pr2 => e1 = e2 /\ l1 = l2 /\ pr1 = pr2
  | OrgBlocked _, OrgBlocked _ => True
  | _, _ => False
  end.

(** A row of the report with a drained pull-request summary. *)
Definition good_row (tokens : list string) (org_name : string) (r : row) : Prop :=
  is_repo_info r /\ drained_summary tokens org_name r.

(** A listing of [length pages + 1] pages of repository entries. *)
Definition org_listing (pages : list (list json * json)) (last : list json)
    (last_cursor : json) : list response :=
  map (fun p => HttpJson (org_page (fst p) (snd p) true)) pages
  ++ [HttpJson (org_page last last_cursor false)].

(** A page that is not empty and holds records only. *)
Definition page_ok (repos : list json) : bool :=
  match repos with
  | [] => false
  | _ => forallb is_record repos
  end.

(** A step of a path into a JSON value: a member, or the first item. *)
Inductive path_step : Type :=
| Key (k : string)
| First.

(** Some member on the path is missing: the value is an object without the
    key, the values before it being present. *)
Fixpoint absent_at (path : list path_step) (x : json) : bool :=
  match path with
  | [] => false
  | Key k :: more =>
      match x with
      | JObj members =>
          match Py.lookup k members with
          | None => true
          | Some v => absent_at more v
          end
      | _ => false
      end
  | First :: more =>
      match x with
      | JArr (v :: _) => absent_at more v
      | _ => false
      end
  end.

Definition last_pusher_path : list path_step :=
  [Key "defaultBranchRef"; Key "target"; Key "history"; Key "nodes"; First;
   Key "author"; Key "user"; Key "login"].

(** ** End states and trace measures *)

Definition page_state (p : page_outcome) : state :=
  match p with
  | PageDone _ st _ | PageRaised _ _ st _ | PageBlocked st => st
  end.

Definition org_signal_state (s : org_signal) : state :=
  match s with
  | OrgContinue _ st _ | OrgBreak _ st _ | OrgFallthrough _ st _
  | OrgRaise _ _ st _ | OrgBlocked st => st
  end.

Definition main_state (m : main_outcome) : state :=
  match m with
  | MainDone _ st _ _ | MainRaised _ _ st | MainBlocked _ st => st
  end.

(** The log entries of failed fetches, of either loop. *)
Definition is_failure_log (e : event) : bool :=
  match e with
  | LogError (GraphQLErrorsRepo _ _ _) => true
  | LogError (NetworkErrorRepo _ _ _) => true
  | LogError (UnexpectedErrorRepo _ _ _) => true
  | LogError (GraphQLErrorsOrg _ _) => true
  | LogError (NetworkErrorOrg _ _) => true
  | LogError (UnexpectedErrorOrg _ _) => true
  | _ => false
  end.

Definition is_rotation (e : event) : bool :=
  match e with
  | Print (SwitchedToToken _) => true
  | _ => false
  end.

Definition count_events (f : event -> bool) (t : list event) : nat :=
  List.length (filter f t).

Definition rotate_index (n i : nat) : nat := (i + 1) mod n.

(** From [st] to [st'] the trace grew by as many failure log entries as
    rotations, and the index moved by that many rotations. *)
Definition balanced (tokens : list string) (st' st : state) : Prop :=
  exists added k,
    trace st' = trace st ++ added /\
    count_events is_failure_log added = k /\
    count_events is_rotation added = k /\
    token_index st' =
      Nat.iter k (rotate_index (List.length tokens)) (token_index st).

(** From [st] to [st'] the trace grew, without a request for a page of
    repositories. *)
Definition quiet (st' st : state) : Prop :=
  exists added,
    trace st' = trace st ++ added /\
    forallb (fun e => negb (is_post RepositoriesQuery e)) added = true.

(** The index stays below the number of tokens. *)
Definition keeps_range (tokens : list string) (st' st : state) : Prop :=
  token_index st < List.length tokens -> token_index st' < List.length tokens.

Definition cursor_of (variables : list (string * json)) : json :=
  match Py.lookup "cursor" variables with
  | Some c => c
  | None => JNull
  end.

(** The cursors of the requests of query [q] in a trace, in order. *)
Fixpoint cursors (q : query) (t : list event) : list json :=
  match t with
  | [] => []
  | e :: more =>
      match e with
      | Post _ _ variables =>
          if is_post q e then cursor_of variables :: cursors q more
          else cursors q more
      | _ => cursors q more
      end
  end.

(** What a step of the program may do to the state, for a relation [R]
    between the state after and the state before. *)
Record step_invariant (tokens : list string) (R : state -> state -> Prop)
  : Prop := mkStepInvariant {
  inv_refl : forall st, R st st;
  inv_trans : forall st1 st2 st3, R st3 st2 -> R st2 st1 -> R st3 st1;
  inv_post_pr : forall variables st,
    R (post tokens PullRequestsQuery variables st) st;
  inv_print : forall m st, is_rotation (Print m) = false -> R (emit (Print m) st) st;
  inv_sleep : forall st, R (emit Sleep st) st;
  inv_skip : forall m st, is_skip (LogError m) = true -> R (emit (LogError m) st) st;
  inv_failure : forall m st,
    is_failure_log (LogError m) = true ->
    R (switch_token tokens (emit (LogError m) st)) st
}.

Definition is_object (x : json) : bool :=
  match x with
  | JObj _ => true
  | _ => false
  end.

(** A node of the [languages] list, with or without its name. *)
Definition lang_node (name : option string) : json :=
  match name with
  | Some n => JObj [("name", JStr n)]
  | None => JObj []
  end.

Definition name_or_na (name : option string) : string :=
  match name with
  | Some n => n
  | None => "N/A"
  end.

(** ** Configuration (lines 12-25)

    A character of a setting is a code point below 256. *)

(** The characters [str.strip()] removes: the white space below 256. *)
Definition is_space (c : ascii) : bool :=
  let n := nat_of_ascii c in
  (Nat.leb 9 n && Nat.leb n 13) || (Nat.leb 28 n && Nat.leb n 32)
  || Nat.eqb n 133 || Nat.eqb n 160.

Fixpoint lstrip (s : string) : string :=
  match s with
  | EmptyString => EmptyString
  | String c s' => if is_space c then lstrip s' else s
  end.

Fixpoint rstrip (s : string) : string :=
  match s with
  | EmptyString => EmptyString
  | String c s' =>
      match rstrip s' with
      | EmptyString => if is_space c then EmptyString else String c EmptyString
      | r => String c r
      end
  end.

(** [s.strip()] *)
Definition strip (s : string) : string := rstrip (lstrip s).

(** [s.split(sep)] for a separator of one character.  The result is never
    empty, so the last branch is not taken. *)
Fixpoint split_on (sep : ascii) (s : string) : list string :=
  match s with
  | EmptyString => [EmptyString]
  | String c s' =>
      if Ascii.eqb c sep then EmptyString :: split_on sep s'
      else match split_on sep s' with
           | piece :: more => String c piece :: more
           | [] => [String c EmptyString]
           end
  end.

(** [[x.strip() for x in value.split(",") if x.strip()]] *)
Definition parse_list (value : string) : list string :=
  filter (fun t => negb (String.eqb t ""))
    (map strip (split_on "," value)).

(** [os.getenv(name, "")] *)
Definition getenv (value : option string) : string :=
  match value with
  | Some v => v
  | None => ""
  end.

(** Lines 12-25: the settings read from the environment, checked, and the
    endpoint built from the server URL. *)
Definition load_configuration (tokens_env url_env orgs_env : option string)
  : py (list string * string * list string) :=
  let tokens := parse_list (getenv tokens_env) in
  let server_url := strip (getenv url_env) in
  let org_names := parse_list (getenv orgs_env) in
  _ <- validate_configuration tokens server_url org_names ;;
  Val (tokens, (server_url ++ "/graphql")%string, org_names).

Fixpoint all_chars (p : ascii -> bool) (s : string) : bool :=
  match s with
  | EmptyString => true
  | String c s' => p c && all_chars p s'
  end.

Definition no_comma (s : string) : bool :=
  all_chars (fun c => negb (Ascii.eqb c ",")) s.

(** An entry as the parser returns it: not empty, no comma, no white space
    around it. *)
Definition clean (t : string) : Prop :=
  t <> ""%string /\ strip t = t /\ no_comma t = true.

Definition starts_clean (s : string) : bool :=
  match s with
  | EmptyString => true
  | String c _ => negb (is_space c)
  end.

(** A list setting without an entry: unset, or commas and white space only. *)
Definition blank_list (value : option string) : bool :=
  all_chars (fun c => is_space c || Ascii.eqb c ",") (getenv value).

(** A text setting that is unset or white space only. *)
Definition blank_text (value : option string) : bool :=
  all_chars is_space (getenv value).

(** A page of repositories that comes without its [pageInfo]. *)
Definition org_page_without_info (repos : list json) : json :=
  JObj [("data", JObj [("organization", JObj [("repositories",
    JObj [("nodes", JArr repos)])])])].




Section Counter.

Variable tokens : list string.
Variable repo_name : json.
Variable org_name : string.

Local Abbreviation loop := (pr_loop tokens repo_name org_name).
Local Abbreviation try := (pr_try tokens repo_name org_name).

Lemma posts_app q t1 t2 : posts q (t1 ++ t2) = posts q t1 + posts q t2.
Proof. unfold posts. now rewrite filter_app, length_app. Qed.

Lemma posts_emit q e st :
  posts q (trace (emit e st)) = posts q (trace st) + (if is_post q e then 1 else 0).
Proof.
  unfold emit. cbn [trace]. rewrite posts_app. unfold posts at 2. cbn [filter].
  now destruct (is_post q e).
Qed.

Lemma posts_switch_token q st :
  posts q (trace (switch_token tokens st)) = posts q (trace st).
Proof.
  unfold switch_token. rewrite posts_emit. cbn [trace].
  destruct q; cbn [is_post]; lia.
Qed.

Lemma token_index_emit e st : token_index (emit e st) = token_index st.
Proof. reflexivity. Qed.

Lemma count_states_cons s states o c :
  count_states (pr_node s :: states) o c =
  if String.eqb s "CLOSED" || String.eqb s "MERGED"
  then count_states states o (S c)
  else if String.eqb s "OPEN" then count_states states (S o) c
       else count_states states o c.
Proof. reflexivity. Qed.

Lemma count_states_nodes states o c :
  count_states (map pr_node states) o c =
  (o + count_open states, c + count_closed_or_merged states, None).
Proof.
  revert o c. induction states as [|s states IH]; intros o c.
  - cbn. now rewrite !Nat.add_0_r.
  - cbn [map]. rewrite count_states_cons.
    unfold count_open, count_closed_or_merged in *. cbn [filter].
    destruct (String.eqb s "CLOSED" || String.eqb s "MERGED") eqn:E.
    + assert (String.eqb s "OPEN" = false) as ->.
      { apply orb_true_iff in E.
        destruct E as [E|E]; apply String.eqb_eq in E; now subst s. }
      rewrite IH. cbn [List.length]. now rewrite Nat.add_succ_r.
    + destruct (String.eqb s "OPEN"); rewrite IH; cbn [List.length];
        rewrite ?Nat.add_succ_r; reflexivity.
Qed.

Lemma page_has_no_errors states c h :
  Py.contains "errors" (pr_page states c h) = Val false.
Proof. reflexivity. Qed.

Lemma page_nodes states c h :
  (p <- pull_requests_of (pr_page states c h) ;; n <- Py.getitem p "nodes" ;;
   Py.iter n) = Val (map pr_node states).
Proof. reflexivity. Qed.

Lemma page_has_next states c h :
  (p <- pull_requests_of (pr_page states c h) ;; i <- Py.getitem p "pageInfo" ;;
   Py.getitem i "hasNextPage") = Val (JBool h).
Proof. reflexivity. Qed.

Lemma page_end_cursor states c h :
  (p <- pull_requests_of (pr_page states c h) ;; i <- Py.getitem p "pageInfo" ;;
   Py.getitem i "endCursor") = Val c.
Proof. reflexivity. Qed.

Lemma pr_body_page states c h l st :
  pr_body tokens repo_name org_name (pr_page states c h) l st =
  let o := open_count l + count_open states in
  let k := closed_count l + count_closed_or_merged states in
  let st1 := emit (Print (FetchedPage repo_name o k)) st in
  if h then Fallthrough (mkLocals o k c) (emit Sleep st1)
  else Break (mkLocals o k (cursor l)) st1.
Proof.
  unfold pr_body.
  rewrite page_has_no_errors, page_nodes, count_states_nodes, page_has_next,
    page_end_cursor.
  now destruct h.
Qed.


Lemma pr_try_page states c h l st :
  try (HttpJson (pr_page states c h)) l st =
  let st0 := post tokens PullRequestsQuery
               (pr_variables repo_name org_name (cursor l)) st in
  let o := open_count l + count_open states in
  let k := closed_count l + count_closed_or_merged states in
  let st1 := emit (Print (FetchedPage repo_name o k)) st0 in
  if h then Fallthrough (mkLocals o k c) (emit Sleep st1)
  else Break (mkLocals o k (cursor l)) st1.
Proof. unfold pr_try. now rewrite pr_body_page. Qed.

Lemma posts_post q q' vars st :
  posts q (trace (post tokens q' vars st)) =
  posts q (trace st) + (if is_post q (Post [] q' vars) then 1 else 0).
Proof.
  unfold post, get_headers. rewrite posts_emit. now destruct q, q'.
Qed.

Lemma count_open_app s1 s2 : count_open (s1 ++ s2) = count_open s1 + count_open s2.
Proof. unfold count_open. now rewrite filter_app, length_app. Qed.

Lemma count_closed_or_merged_app s1 s2 :
  count_closed_or_merged (s1 ++ s2) =
  count_closed_or_merged s1 + count_closed_or_merged s2.
Proof. unfold count_closed_or_merged. now rewrite filter_app, length_app. Qed.

(** A listing without failures is read page by page to its last page. *)
Lemma pr_loop_listing pages last last_cursor rest :
  forall l st,
  exists st',
    loop (pr_listing pages last last_cursor ++ rest) l st =
      Returned (open_count l + count_open (all_states pages last),
                closed_count l + count_closed_or_merged (all_states pages last))
               st' rest /\
    posts PullRequestsQuery (trace st') =
      posts PullRequestsQuery (trace st) + S (List.length pages) /\
    posts RepositoriesQuery (trace st') = posts RepositoriesQuery (trace st) /\
    token_index st' = token_index st.
Proof.
  induction pages as [|[states c] pages IH]; intros l st.
  - unfold pr_listing, all_states. cbn [map List.concat app pr_loop].
    rewrite pr_try_page. cbv zeta. eexists. split; [reflexivity|].
    rewrite !posts_emit, !posts_post. cbn [is_post List.length token_index emit].
    repeat split; (lia || reflexivity).
  - unfold pr_listing, all_states in *. cbn [map List.concat app pr_loop fst snd].
    rewrite pr_try_page. cbv zeta.
    edestruct IH as (st' & Hrun & Hpr & Horg & Htok). rewrite Hrun.
    exists st'. cbn [open_count closed_count].
    rewrite <- ?app_assoc, !count_open_app, !count_closed_or_merged_app, !Nat.add_assoc.
    split; [reflexivity|].
    rewrite Hpr, Horg, Htok, !posts_emit, !posts_post.
    cbn [is_post List.length token_index emit]. repeat split; (lia || reflexivity).
Qed.

Lemma pr_except_catches e : exists m, pr_except repo_name org_name e = Some m.
Proof. destruct e; eexists; reflexivity. Qed.

(** No exception leaves the loop. *)
Lemma pr_loop_never_raises responses :
  forall l st e st' left, loop responses l st <> Raised e st' left.
Proof.
  induction responses as [|r rest IH]; intros l st e st' left; cbn [pr_loop].
  - discriminate.
  - destruct (try r l st) as [l1 st1|l1 st1|l1 st1|e1 l1 st1]; try apply IH.
    + discriminate.
    + destruct (pr_except_catches e1) as [m ->]. apply IH.
Qed.

Lemma pr_body_break data l st l' st' :
  pr_body tokens repo_name org_name data l st = Break l' st' ->
  exhaustion_page data.
Proof.
  unfold pr_body, exhaustion_page.
  destruct (Py.contains "errors" data) as [[|]|]; try discriminate.
  - destruct (Py.getitem data "errors"); discriminate.
  - destruct (p <- pull_requests_of data;; n <- Py.getitem p "nodes";; Py.iter n);
      try discriminate.
    destruct (count_states a (open_count l) (closed_count l)) as [[o c] [e|]];
      try discriminate.
    destruct (p <- pull_requests_of data;; i <- Py.getitem p "pageInfo";;
              Py.getitem i "hasNextPage") as [h|]; try discriminate.
    destruct (Py.truthy h) eqn:Hh; cbn [negb].
    + destruct (p <- pull_requests_of data;; i <- Py.getitem p "pageInfo";;
                Py.getitem i "endCursor"); discriminate.
    + intros _. split; [reflexivity|]. now exists h.
Qed.

(** The loop returns only from an attempt that read an exhaustion page. *)
Lemma pr_loop_returns_exhausted responses :
  forall l st v st' left,
    loop responses l st = Returned v st' left ->
    exists consumed data,
      responses = consumed ++ HttpJson data :: left /\ exhaustion_page data.
Proof.
  induction responses as [|r rest IH]; intros l st v st' left; cbn [pr_loop].
  - discriminate.
  - destruct (try r l st) as [l1 st1|l1 st1|l1 st1|e1 l1 st1] eqn:Htry.
    + intros H. apply IH in H as (consumed & data & -> & Hx).
      now exists (r :: consumed), data.
    + intros H. injection H as _ _ <-.
      destruct r as [data|e]; [|discriminate].
      exists [], data. split; [reflexivity|].
      unfold pr_try in Htry. now apply pr_body_break in Htry.
    + intros H. apply IH in H as (consumed & data & -> & Hx).
      now exists (r :: consumed), data.
    + destruct (pr_except_catches e1) as [m ->].
      intros H. apply IH in H as (consumed & data & -> & Hx).
      now exists (r :: consumed), data.
Qed.

(** An attempt that raises keeps the cursor: the retry asks for the same page. *)
Lemma pr_try_raise_cursor r l st e l' st' :
  try r l st = Raise e l' st' -> cursor l' = cursor l.
Proof.
  unfold pr_try. destruct r as [data|e0].
  - unfold pr_body.
    destruct (Py.contains "errors" data) as [[|]|].
    + destruct (Py.getitem data "errors"); [discriminate|].
      now intros [= _ <- _].
    + destruct (p <- pull_requests_of data;; n <- Py.getitem p "nodes";; Py.iter n).
      * destruct (count_states a (open_count l) (closed_count l)) as [[o c] [e1|]].
        -- now intros [= _ <- _].
        -- destruct (p <- pull_requests_of data;; i <- Py.getitem p "pageInfo";;
                     Py.getitem i "hasNextPage") as [h|].
           ++ destruct (negb (Py.truthy h)); [discriminate|].
              destruct (p <- pull_requests_of data;; i <- Py.getitem p "pageInfo";;
                        Py.getitem i "endCursor"); [discriminate|].
              now intros [= _ <- _].
           ++ now intros [= _ <- _].
      * now intros [= _ <- _].
    + now intros [= _ <- _].
  - now intros [= _ <- _].
Qed.

Lemma pr_try_soft members errors l st :
  Py.lookup "errors" members = Some errors ->
  try (HttpJson (JObj members)) l st =
  Continue l
    (switch_token tokens
       (emit (LogError (GraphQLErrorsRepo repo_name org_name errors))
          (post tokens PullRequestsQuery
             (pr_variables repo_name org_name (cursor l)) st))).
Proof.
  intros H. unfold pr_try, pr_body. cbn [Py.contains Py.getitem]. now rewrite H.
Qed.

(** A failed attempt changes the state only: token index and log. *)
Lemma pr_loop_failed_attempt r rest l st :
  failed_attempt r ->
  exists m,
    loop (r :: rest) l st =
    loop rest l
      (switch_token tokens
         (emit (LogError m)
            (post tokens PullRequestsQuery
               (pr_variables repo_name org_name (cursor l)) st))).
Proof.
  intros [members errors H|e]; cbn [pr_loop].
  - rewrite (pr_try_soft _ _ _ _ H). eexists. reflexivity.
  - unfold pr_try. destruct (pr_except_catches e) as [m ->]. now exists m.
Qed.

Lemma pr_try_same_signal r l st1 st2 : same_signal (try r l st1) (try r l st2).
Proof.
  unfold pr_try. destruct r as [data|e]; [|now cbn].
  unfold pr_body.
  destruct (Py.contains "errors" data) as [[|]|]; [| |now cbn].
  - now destruct (Py.getitem data "errors").
  - destruct (p <- pull_requests_of data;; n <- Py.getitem p "nodes";; Py.iter n);
      [|now cbn].
    destruct (count_states a (open_count l) (closed_count l)) as [[o c] [e1|]];
      [now cbn|].
    destruct (p <- pull_requests_of data;; i <- Py.getitem p "pageInfo";;
              Py.getitem i "hasNextPage") as [h|]; [|now cbn].
    destruct (negb (Py.truthy h)); [now cbn|].
    now destruct (p <- pull_requests_of data;; i <- Py.getitem p "pageInfo";;
                  Py.getitem i "endCursor").
Qed.

(** What the loop returns does not depend on the token index or the log. *)
Lemma pr_loop_observe responses :
  forall l st1 st2, observe (loop responses l st1) = observe (loop responses l st2).
Proof.
  induction responses as [|r rest IH]; intros l st1 st2; cbn [pr_loop].
  - reflexivity.
  - pose proof (pr_try_same_signal r l st1 st2) as H.
    destruct (try r l st1) as [a s|a s|a s|e a s],
             (try r l st2) as [b t|b t|b t|e' b t];
      cbn [same_signal] in H; try contradiction.
    + subst. apply IH.
    + now subst.
    + subst. apply IH.
    + destruct H as [<- <-]. destruct (pr_except_catches e) as [m ->]. apply IH.
Qed.

End Counter.

Section Enumerator.

Variable tokens : list string.
Variable org_name : string.

Lemma extends_refl st : extends st st.
Proof. exists []. now rewrite app_nil_r. Qed.

Lemma extends_trans st1 st2 st3 : extends st3 st2 -> extends st2 st1 -> extends st3 st1.
Proof.
  intros (a2 & H2 & F2) (a1 & H1 & F1). exists (a1 ++ a2). split.
  - now rewrite H2, H1, app_assoc.
  - now rewrite forallb_app, F1, F2.
Qed.

Lemma extends_emit e st : from_counter e = true -> extends (emit e st) st.
Proof. intros H. exists [e]. cbn. now rewrite H. Qed.

Lemma extends_post vars st : extends (post tokens PullRequestsQuery vars st) st.
Proof. now apply extends_emit. Qed.

Lemma extends_switch_token st : extends (switch_token tokens st) st.
Proof. eexists [_]. split; reflexivity. Qed.

Lemma filter_none {A} (f g : A -> bool) l :
  (forall x, g x = true -> f x = false) -> forallb g l = true -> filter f l = [].
Proof.
  intros H. induction l as [|x l IH]; cbn; [reflexivity|].
  intros [Hx Hl]%andb_true_iff. rewrite (H x Hx). now apply IH.
Qed.

Lemma extends_skipped st' st : extends st' st -> skipped (trace st') = skipped (trace st).
Proof.
  intros (added & -> & F). unfold skipped. rewrite filter_app, length_app.
  rewrite (filter_none is_skip from_counter added); [cbn; lia| |exact F].
  intros [? [] ?|[]| []|]; cbn; congruence.
Qed.

Lemma extends_posts st' st :
  extends st' st ->
  posts RepositoriesQuery (trace st') = posts RepositoriesQuery (trace st).
Proof.
  intros (added & -> & F). rewrite posts_app. unfold posts at 2.
  rewrite (filter_none (is_post RepositoriesQuery) from_counter added);
    [cbn; lia| |exact F].
  intros [? [] ?|[]| []|]; cbn; congruence.
Qed.

Lemma pr_try_extends repo_name r l st :
  extends (signal_state (pr_try tokens repo_name org_name r l st)) st.
Proof.
  unfold pr_try.
  set (st1 := post tokens PullRequestsQuery _ st).
  assert (H1 : extends st1 st) by apply extends_post.
  destruct r as [data|e]; [|exact H1].
  unfold pr_body.
  destruct (Py.contains "errors" data) as [[|]|]; [| |exact H1].
  - destruct (Py.getitem data "errors"); [|exact H1]. cbn [signal_state].
    eapply extends_trans; [apply extends_switch_token|].
    eapply extends_trans; [now apply extends_emit|exact H1].
  - destruct (p <- pull_requests_of data;; n <- Py.getitem p "nodes";; Py.iter n);
      [|exact H1].
    destruct (count_states a (open_count l) (closed_count l)) as [[o c] [e1|]];
      [exact H1|].
    assert (H2 : extends (emit (Print (FetchedPage repo_name o c)) st1) st).
    { eapply extends_trans; [now apply extends_emit|exact H1]. }
    destruct (p <- pull_requests_of data;; i <- Py.getitem p "pageInfo";;
              Py.getitem i "hasNextPage") as [h|]; [|exact H2].
    destruct (negb (Py.truthy h)); [exact H2|].
    destruct (p <- pull_requests_of data;; i <- Py.getitem p "pageInfo";;
              Py.getitem i "endCursor"); [|exact H2].
    cbn [signal_state]. eapply extends_trans; [now apply extends_emit|exact H2].
Qed.

(** The counter only adds events of its own to the trace. *)
Lemma pr_loop_extends repo_name responses :
  forall l st,
    extends (outcome_state (pr_loop tokens repo_name org_name responses l st)) st.
Proof.
  induction responses as [|r rest IH]; intros l st; cbn [pr_loop].
  - apply extends_refl.
  - pose proof (pr_try_extends repo_name r l st) as H.
    destruct (pr_try tokens repo_name org_name r l st) as [a s|a s|a s|e a s];
      cbn [signal_state] in H.
    + eapply extends_trans; [apply IH|exact H].
    + exact H.
    + eapply extends_trans; [apply IH|exact H].
    + destruct (pr_except_catches repo_name org_name e) as [m Hm]. rewrite Hm.
      eapply extends_trans; [apply IH|].
      eapply extends_trans; [apply extends_switch_token|].
      eapply extends_trans; [|exact H]. apply extends_emit.
      unfold pr_except in Hm. cbn in Hm. destruct e; now injection Hm as <-.
Qed.


Lemma skipped_emit e st :
  skipped (trace (emit e st)) = skipped (trace st) + (if is_skip e then 1 else 0).
Proof.
  unfold emit, skipped. cbn [trace]. rewrite filter_app, length_app. cbn [filter].
  now destruct (is_skip e).
Qed.

Lemma repo_except_cases repo e details st pr :
  match repo_except org_name repo e details st pr with
  | PageDone d st' pr' =>
      d = details /\ pr' = pr /\
      skipped (trace st') = S (skipped (trace st)) /\
      posts RepositoriesQuery (trace st') = posts RepositoriesQuery (trace st)
  | PageRaised _ d _ _ => d = details /\ forall members, repo <> JObj members
  | PageBlocked _ => False
  end.
Proof.
  unfold repo_except. cbn [dispatch catches].
  destruct repo; cbn [Py.get]; try (split; [reflexivity|discriminate]).
  destruct (Py.lookup "name" members);
    (repeat split; [rewrite skipped_emit; cbn [is_skip]; lia
                   |rewrite posts_emit; cbn [is_post]; lia]).
Qed.

Lemma repo_info_name before o c after :
  Py.lookup "Repository Name" (repo_info before o c after) =
  Some (fst (fst (fst (fst (fst before))))).
Proof.
  destruct before as [[[[[? ?] ?] ?] ?] ?], after as [[[[[[[? ?] ?] ?] ?] ?] ?] ?].
  reflexivity.
Qed.

Lemma repo_info_pull_requests before o c after :
  Py.lookup "Open Pull Requests" (repo_info before o c after) =
    Some (JNum (Z.of_nat o)) /\
  Py.lookup "Closed Pull Requests" (repo_info before o c after) =
    Some (JNum (Z.of_nat c)).
Proof.
  destruct before as [[[[[? ?] ?] ?] ?] ?], after as [[[[[[[? ?] ?] ?] ?] ?] ?] ?].
  split; reflexivity.
Qed.

(** What processing one entry does to the rows and to the log. *)
Lemma process_repo_cases repo pr details st :
  match process_repo tokens org_name repo pr details st with
  | PageDone d st' pr' =>
      posts RepositoriesQuery (trace st') = posts RepositoriesQuery (trace st) /\
      ((d = details /\ skipped (trace st') = S (skipped (trace st))) \/
       (exists r, d = details ++ [r] /\
                  skipped (trace st') = skipped (trace st) /\
                  is_repo_info r /\ drained_summary tokens org_name r))
  | PageRaised _ d _ _ => d = details /\ forall members, repo <> JObj members
  | PageBlocked _ => True
  end.
Proof.
  unfold process_repo.
  destruct (fields_before repo) as [before|e].
  - set (name := fst (fst (fst (fst (fst before))))).
    pose proof (pr_loop_extends name pr (mkLocals 0 0 JNull) st) as Hext.
    fold (fetch_pull_requests_count tokens name org_name pr st) in Hext.
    destruct (fetch_pull_requests_count tokens name org_name pr st)
      as [[o c] st' pr'|e st' pr'|st'] eqn:Hcount; cbn [outcome_state] in Hext.
    + destruct (fields_after repo) as [after|e].
      * split; [now apply extends_posts|]. right.
        exists (repo_info before o c after). split; [reflexivity|].
        split; [now apply extends_skipped|]. split; [now do 4 eexists|].
        destruct (pr_loop_returns_exhausted _ _ _ _ _ _ _ _ _ Hcount)
          as (consumed & data & Hsplit & Hx).
        destruct (repo_info_pull_requests before o c after) as [Ho Hc].
        exists name, pr, st, o, c, st', pr', consumed, data.
        repeat split; try assumption; try apply Hx. apply repo_info_name.
      * pose proof (repo_except_cases repo e details st' pr') as H.
        destruct (repo_except org_name repo e details st' pr');
          [|exact H|exact I].
        destruct H as (-> & _ & Hs & Hp).
        rewrite Hp, Hs, (extends_posts _ _ Hext), (extends_skipped _ _ Hext).
        split; [reflexivity|now left].
    + now apply pr_loop_never_raises in Hcount.
    + exact I.
  - pose proof (repo_except_cases repo e details st pr) as H.
    destruct (repo_except org_name repo e details st pr); [|exact H|exact I].
    destruct H as (-> & _ & Hs & Hp). split; [exact Hp|now left].
Qed.


Lemma process_repos_cons repo more pr details st :
  repo <> JNull ->
  process_repos tokens org_name (repo :: more) pr details st =
  match process_repo tokens org_name repo pr details st with
  | PageDone details' st' pr_left =>
      process_repos tokens org_name more pr_left details' st'
  | stopped => stopped
  end.
Proof. destruct repo; try reflexivity. congruence. Qed.

Lemma process_repos_null more pr details st :
  process_repos tokens org_name (JNull :: more) pr details st =
  process_repos tokens org_name more pr details
    (emit (LogError (EntryIsNone org_name)) st).
Proof. reflexivity. Qed.

Lemma not_record repo :
  repo <> JNull -> (forall members, repo <> JObj members) -> is_record repo = false.
Proof. destruct repo; try reflexivity; intros H1 H2; [congruence|now elim (H2 members)]. Qed.

(** What processing the entries of a page does to the rows and to the log:
    every entry either adds its row or one log entry, in order. *)
Lemma process_repos_cases repos :
  forall pr details st,
  match process_repos tokens org_name repos pr details st with
  | PageDone d st' _ =>
      exists added,
        d = details ++ added /\
        List.length added + skipped (trace st') =
          skipped (trace st) + List.length repos /\
        posts RepositoriesQuery (trace st') = posts RepositoriesQuery (trace st) /\
        Forall is_repo_info added /\
        Forall (drained_summary tokens org_name) added
  | PageRaised _ d _ _ =>
      (exists added,
         d = details ++ added /\
         Forall is_repo_info added /\
         Forall (drained_summary tokens org_name) added) /\
      exists r, In r repos /\ is_record r = false
  | PageBlocked _ => True
  end.
Proof.
  induction repos as [|repo more IH]; intros pr details st.
  - cbn [process_repos]. exists []. rewrite app_nil_r. cbn [List.length].
    repeat split; auto; lia.
  - assert (Hnull : repo = JNull \/ repo <> JNull)
      by (destruct repo; (now left) || (right; discriminate)).
    destruct Hnull as [->|Hnn].
    + rewrite process_repos_null.
      specialize (IH pr details (emit (LogError (EntryIsNone org_name)) st)).
      destruct (process_repos tokens org_name more pr details _) as [d s p|e d s p|s].
      * destruct IH as (added & -> & Hlen & Hposts & Hinfo & Hdr).
        exists added. rewrite skipped_emit in Hlen. rewrite posts_emit in Hposts.
        cbn [is_skip is_post List.length] in *. repeat split; auto; lia.
      * destruct IH as (Hadded & r & Hin & Hr).
        split; [exact Hadded|]. exists r. split; [now right|exact Hr].
      * exact I.
    + rewrite (process_repos_cons _ _ _ _ _ Hnn).
      pose proof (process_repo_cases repo pr details st) as Hstep.
      destruct (process_repo tokens org_name repo pr details st)
        as [d1 s1 p1|e1 d1 s1 p1|s1].
      * destruct Hstep as [Hp1 Hstep]. specialize (IH p1 d1 s1).
        destruct (process_repos tokens org_name more p1 d1 s1) as [d s p|e d s p|s].
        -- destruct IH as (added & -> & Hlen & Hposts & Hinfo & Hdr).
           destruct Hstep as [[-> Hs]|(r & -> & Hs & Hr & Hd)].
           ++ exists added. cbn [List.length]. repeat split; auto; lia.
           ++ exists (r :: added). rewrite <- app_assoc. cbn [app List.length].
              repeat split; auto; try lia.
        -- destruct IH as ((added & -> & Hinfo & Hdr) & r & Hin & Hr).
           split; [|exists r; split; [now right|exact Hr]].
           destruct Hstep as [[-> Hs]|(r1 & -> & Hs & Hr1 & Hd)].
           ++ now exists added.
           ++ exists (r1 :: added). rewrite <- app_assoc. now repeat split; auto.
        -- exact I.
      * destruct Hstep as [-> Hobj]. split.
        -- exists []. now rewrite app_nil_r.
        -- exists repo. split; [now left|now apply not_record].
      * exact I.
Qed.

(** Entries that are records never make the [for] loop raise. *)
Lemma process_repos_records repos pr details st e d st' pr' :
  Forall (fun r => is_record r = true) repos ->
  process_repos tokens org_name repos pr details st <> PageRaised e d st' pr'.
Proof.
  intros Hrec Heq. pose proof (process_repos_cases repos pr details st) as H.
  rewrite Heq in H. destruct H as (_ & r & Hin & Hr).
  rewrite Forall_forall in Hrec. specialize (Hrec r Hin). congruence.
Qed.

End Enumerator.

Section EnumeratorLoop.

Variable tokens : list string.
Variable org_name : string.

Local Abbreviation oloop := (org_loop tokens org_name).
Local Abbreviation otry := (org_try tokens org_name).

Lemma org_except_catches e : exists m, org_except org_name e = Some m.
Proof. destruct e; eexists; reflexivity. Qed.

(** No exception leaves the enumerator's loop. *)
Lemma org_loop_never_raises responses :
  forall pr l st e st' left, oloop responses pr l st <> Raised e st' left.
Proof.
  induction responses as [|r rest IH]; intros pr l st e st' left; cbn [org_loop].
  - discriminate.
  - destruct (otry r pr l st) as [l1 s1 p1|l1 s1 p1|l1 s1 p1|e1 l1 s1 p1|s1];
      try apply IH; try discriminate.
    destruct (org_except_catches e1) as [m ->]. apply IH.
Qed.

Lemma org_try_soft members errors pr l st :
  Py.lookup "errors" members = Some errors ->
  otry (HttpJson (JObj members)) pr l st =
  OrgContinue l
    (switch_token tokens
       (emit (LogError (GraphQLErrorsOrg org_name errors))
          (post tokens RepositoriesQuery
             (org_variables org_name (org_cursor l)) st))) pr.
Proof.
  intros H. unfold org_try, org_body. cbn [Py.contains Py.getitem]. now rewrite H.
Qed.

(** The rows a single attempt adds are good rows. *)
Lemma org_try_rows r pr l st :
  match otry r pr l st with
  | OrgContinue l' _ _ | OrgBreak l' _ _ | OrgFallthrough l' _ _
  | OrgRaise _ l' _ _ =>
      exists added,
        repo_details l' = repo_details l ++ added /\
        Forall (good_row tokens org_name) added
  | OrgBlocked _ => True
  end.
Proof.
  assert (Hsame : exists added : list row,
             repo_details l = repo_details l ++ added /\
             Forall (good_row tokens org_name) added)
    by (exists []; now rewrite app_nil_r).
  unfold org_try. destruct r as [data|e]; [|exact Hsame].
  unfold org_body.
  destruct (Py.contains "errors" data) as [[|]|]; [| |exact Hsame].
  - destruct (Py.getitem data "errors"); exact Hsame.
  - match goal with |- context [match ?chain with Val _ => _ | Exc _ => _ end] =>
      destruct chain as [[[repos has_next] end_cursor]|]; [|exact Hsame] end.
    destruct (negb (Py.truthy repos)); [exact Hsame|].
    destruct (Py.iter repos) as [items|]; [|exact Hsame].
    match goal with |- context [process_repos _ _ _ _ ?d ?s] =>
      pose proof (process_repos_cases tokens org_name items pr d s) as H;
      destruct (process_repos tokens org_name items pr d s) as [d1 s1 p1|e1 d1 s1 p1|s1]
    end.
    + destruct H as (added & -> & _ & _ & Hi & Hd).
      assert (Forall (good_row tokens org_name) added).
      { rewrite Forall_forall in *. intros x Hx. split; auto. }
      destruct (negb (Py.truthy has_next)); now exists added.
    + destruct H as ((added & -> & Hi & Hd) & _). exists added. split; [reflexivity|].
      rewrite Forall_forall in *. intros x Hx. split; auto.
    + exact I.
Qed.

(** Every row the enumerator returns is a good row. *)
Lemma org_loop_rows responses :
  forall pr l st rows left st' pr',
    Forall (good_row tokens org_name) (repo_details l) ->
    oloop responses pr l st = Returned (rows, left) st' pr' ->
    Forall (good_row tokens org_name) rows.
Proof.
  induction responses as [|r rest IH]; intros pr l st rows left st' pr' Hl;
    cbn [org_loop]; [discriminate|].
  pose proof (org_try_rows r pr l st) as H.
  destruct (otry r pr l st) as [l1 s1 p1|l1 s1 p1|l1 s1 p1|e1 l1 s1 p1|s1];
    try discriminate;
    destruct H as (added & Hadd & Hgood);
    assert (Hl1 : Forall (good_row tokens org_name) (repo_details l1))
      by (rewrite Hadd; apply Forall_app; now split).
  - now apply IH.
  - intros [= <- _ _ _]. exact Hl1.
  - now apply IH.
  - destruct (org_except_catches e1) as [m ->]. now apply IH.
Qed.


Lemma repo_except_same repo e details st1 st2 pr :
  same_page_outcome (repo_except org_name repo e details st1 pr)
                    (repo_except org_name repo e details st2 pr).
Proof.
  unfold repo_except. cbn [dispatch catches].
  destruct (Py.get repo "name" (JStr "N/A")); cbn; auto.
Qed.

Lemma process_repo_same repo pr details st1 st2 :
  same_page_outcome (process_repo tokens org_name repo pr details st1)
                    (process_repo tokens org_name repo pr details st2).
Proof.
  unfold process_repo.
  destruct (fields_before repo) as [before|e]; [|apply repo_except_same].
  set (name := fst (fst (fst (fst (fst before))))).
  pose proof (pr_loop_observe tokens name org_name pr (mkLocals 0 0 JNull) st1 st2)
    as H.
  unfold fetch_pull_requests_count.
  destruct (pr_loop tokens name org_name pr _ st1) as [[o c] s p|e s p|s],
           (pr_loop tokens name org_name pr _ st2) as [[o' c'] s' p'|e' s' p'|s'];
    cbn [observe] in H; try discriminate.
  - injection H as <- <- <-.
    destruct (fields_after repo); [now cbn|apply repo_except_same].
  - injection H as <- <-. apply repo_except_same.
  - exact I.
Qed.

Lemma process_repos_same repos :
  forall pr details st1 st2,
    same_page_outcome (process_repos tokens org_name repos pr details st1)
                      (process_repos tokens org_name repos pr details st2).
Proof.
  induction repos as [|repo more IH]; intros pr details st1 st2.
  - now cbn.
  - assert (Hnull : repo = JNull \/ repo <> JNull)
      by (destruct repo; (now left) || (right; discriminate)).
    destruct Hnull as [->|Hnn].
    + rewrite !process_repos_null. apply IH.
    + rewrite !(process_repos_cons _ _ _ _ _ _ _ Hnn).
      pose proof (process_repo_same repo pr details st1 st2) as H.
      destruct (process_repo tokens org_name repo pr details st1),
               (process_repo tokens org_name repo pr details st2);
        cbn [same_page_outcome] in H; try contradiction; try exact H.
      destruct H as [<- <-]. apply IH.
Qed.

Lemma org_try_same r pr l st1 st2 :
  same_org_signal (otry r pr l st1) (otry r pr l st2).
Proof.
  unfold org_try. destruct r as [data|e]; [|now cbn].
  unfold org_body.
  destruct (Py.contains "errors" data) as [[|]|]; [| |now cbn].
  - now destruct (Py.getitem data "errors").
  - match goal with |- context [match ?chain with Val _ => _ | Exc _ => _ end] =>
      destruct chain as [[[repos has_next] end_cursor]|]; [|now cbn] end.
    destruct (negb (Py.truthy repos)); [now cbn|].
    destruct (Py.iter repos) as [items|]; [|now cbn].
    match goal with |- context [process_repos _ _ _ _ ?d (post _ _ _ st1)] =>
      pose proof (process_repos_same items pr d
                    (post tokens RepositoriesQuery
                       (org_variables org_name (org_cursor l)) st1)
                    (post tokens RepositoriesQuery
                       (org_variables org_name (org_cursor l)) st2)) as H
    end.
    destruct (process_repos tokens org_name items pr (repo_details l)
                (post tokens RepositoriesQuery _ st1)),
             (process_repos tokens org_name items pr (repo_details l)
                (post tokens RepositoriesQuery _ st2));
      cbn [same_page_outcome] in H; try contradiction.
    + destruct H as [<- <-]. now destruct (negb (Py.truthy has_next)).
    + destruct H as (<- & <- & <-). now cbn.
    + exact I.
Qed.

(** What the enumerator returns does not depend on the token index or the
    log. *)
Lemma org_loop_observe responses :
  forall pr l st1 st2,
    observe (oloop responses pr l st1) = observe (oloop responses pr l st2).
Proof.
  induction responses as [|r rest IH]; intros pr l st1 st2; cbn [org_loop].
  - reflexivity.
  - pose proof (org_try_same r pr l st1 st2) as H.
    destruct (otry r pr l st1), (otry r pr l st2);
      cbn [same_org_signal] in H; try contradiction.
    + destruct H as [<- <-]. apply IH.
    + now destruct H as [<- <-].
    + destruct H as [<- <-]. apply IH.
    + destruct H as (<- & <- & <-). destruct (org_except_catches e) as [m ->].
      apply IH.
    + reflexivity.
Qed.


Lemma fetch_final_page repo_name states rest st :
  exists st',
    fetch_pull_requests_count tokens repo_name org_name
      (final_pr_page states :: rest) st =
    Returned (count_open states, count_closed_or_merged states) st' rest.
Proof.
  destruct (pr_loop_listing tokens repo_name org_name [] states JNull rest
              (mkLocals 0 0 JNull) st) as (st' & H & _).
  exists st'. exact H.
Qed.

(** With one-page pull-request listings at hand, an object is processed to
    the end and takes at most one of them. *)
Lemma process_repo_supply members s supply extra details st :
  exists d st' supply',
    process_repo tokens org_name (JObj members)
      (map final_pr_page (s :: supply) ++ extra) details st =
    PageDone d st' (map final_pr_page supply' ++ extra) /\
    List.length supply <= List.length supply'.
Proof.
  unfold process_repo.
  destruct (fields_before (JObj members)) as [before|e].
  - cbn [map app].
    destruct (fetch_final_page (fst (fst (fst (fst (fst before))))) s
                (map final_pr_page supply ++ extra) st) as (st' & ->).
    destruct (fields_after (JObj members)) as [after|e].
    + now do 3 eexists.
    + unfold repo_except. cbn [dispatch catches Py.get].
      destruct (Py.lookup "name" members); now do 3 eexists.
  - unfold repo_except. cbn [dispatch catches Py.get].
    destruct (Py.lookup "name" members); exists details; eexists; exists (s :: supply);
      (split; [reflexivity|cbn [List.length]; lia]).
Qed.

Lemma process_repos_supply repos :
  forallb is_record repos = true ->
  forall supply extra details st,
    List.length repos <= List.length supply ->
    exists d st' supply',
      process_repos tokens org_name repos (map final_pr_page supply ++ extra)
        details st =
      PageDone d st' (map final_pr_page supply' ++ extra) /\
      List.length supply <= List.length supply' + List.length repos.
Proof.
  induction repos as [|repo more IH]; intros Hrec supply extra details st Hlen.
  - exists details, st, supply. split; [reflexivity|lia].
  - cbn [forallb] in Hrec. apply andb_true_iff in Hrec as [Hr Hmore].
    cbn [List.length] in Hlen.
    destruct repo; try discriminate.
    + rewrite process_repos_null.
      destruct (IH Hmore supply extra details
                  (emit (LogError (EntryIsNone org_name)) st)) as (d & s & sup & H & L);
        [lia|].
      exists d, s, sup. split; [exact H|cbn [List.length]; lia].
    + destruct supply as [|s0 supply]; [cbn in Hlen; lia|].
      rewrite process_repos_cons by discriminate.
      destruct (process_repo_supply members s0 supply extra details st)
        as (d1 & s1 & sup1 & -> & L1).
      cbn [List.length] in Hlen.
      destruct (IH Hmore sup1 extra d1 s1) as (d & s & sup & H & L); [lia|].
      exists d, s, sup. split; [exact H|cbn [List.length]; lia].
Qed.

Lemma org_try_page repos end_cursor has_next pr l st :
  otry (HttpJson (org_page repos end_cursor has_next)) pr l st =
  let st1 := post tokens RepositoriesQuery
               (org_variables org_name (org_cursor l)) st in
  match repos with
  | [] => OrgBreak (mkOrgLocals end_cursor (repo_details l))
            (emit (Print (NoRepositoriesFound org_name)) st1) pr
  | _ =>
      match process_repos tokens org_name repos pr (repo_details l) st1 with
      | PageBlocked st' => OrgBlocked st'
      | PageRaised e details st' pr_left =>
          OrgRaise e (mkOrgLocals end_cursor details) st' pr_left
      | PageDone details st' pr_left =>
          if has_next
          then OrgFallthrough (mkOrgLocals end_cursor details) (emit Sleep st') pr_left
          else OrgBreak (mkOrgLocals end_cursor details) st' pr_left
      end
  end.
Proof.
  unfold org_try, org_body.
  assert (page_fields (org_page repos end_cursor has_next) =
          Val (JArr repos, JBool has_next, end_cursor)) as -> by reflexivity.
  assert (Py.contains "errors" (org_page repos end_cursor has_next) = Val false)
    as -> by reflexivity.
  destruct repos as [|repo more]; [reflexivity|].
  cbn [Py.truthy Py.iter negb]. cbv zeta.
  destruct (process_repos tokens org_name (repo :: more) pr (repo_details l) _);
    try reflexivity.
  now destruct has_next.
Qed.

(** A listing without failures is read page by page to its last page. *)
Lemma org_loop_listing pages last last_cursor rest :
  forallb page_ok (map fst pages ++ [last]) = true ->
  forall supply extra l st,
    List.length (List.concat (map fst pages ++ [last])) <= List.length supply ->
    exists rows st' pr',
      oloop (org_listing pages last last_cursor ++ rest)
        (map final_pr_page supply ++ extra) l st =
      Returned (rows, rest) st' pr' /\
      posts RepositoriesQuery (trace st') =
        posts RepositoriesQuery (trace st) + S (List.length pages).
Proof.
  unfold org_listing.
  induction pages as [|[repos c] pages IH]; intros Hok supply extra l st Hlen;
    cbn [map app fst snd forallb List.concat] in *;
    apply andb_true_iff in Hok as [Hpage Hok]; cbn [org_loop];
    rewrite org_try_page; cbv zeta.
  - destruct last as [|repo more]; [discriminate|].
    unfold page_ok in Hpage. rewrite app_nil_r in Hlen.
    set (st1 := post tokens RepositoriesQuery _ st).
    destruct (process_repos_supply (repo :: more) Hpage supply extra
                (repo_details l) st1 Hlen) as (d & s & sup & Hrun & _).
    pose proof (process_repos_cases tokens org_name (repo :: more)
                  (map final_pr_page supply ++ extra) (repo_details l) st1) as Hc.
    rewrite Hrun in Hc |- *. destruct Hc as (_ & _ & _ & Hposts & _).
    do 3 eexists. split; [reflexivity|].
    rewrite Hposts. subst st1. rewrite posts_post. cbn [is_post List.length]. lia.
  - destruct repos as [|repo more]; [discriminate|].
    unfold page_ok in Hpage. rewrite length_app in Hlen.
    set (st1 := post tokens RepositoriesQuery _ st).
    destruct (process_repos_supply (repo :: more) Hpage supply extra
                (repo_details l) st1) as (d & s & sup & Hrun & Hsup); [lia|].
    pose proof (process_repos_cases tokens org_name (repo :: more)
                  (map final_pr_page supply ++ extra) (repo_details l) st1) as Hc.
    rewrite Hrun in Hc |- *. destruct Hc as (_ & _ & _ & Hposts & _).
    destruct (IH Hok sup extra (mkOrgLocals c d) (emit Sleep s))
      as (rows & st' & pr' & Hloop & Hp); [lia|].
    exists rows, st', pr'. split; [exact Hloop|].
    rewrite Hp, posts_emit, Hposts. subst st1. rewrite posts_post.
    cbn [is_post List.length]. lia.
Qed.

End EnumeratorLoop.

(** * The claims *)

(** A configuration that passed the check of lines 17-22 has a token. *)
Lemma validated_tokens tokens server_url org_names :
  validate_configuration tokens server_url org_names = Val tt -> tokens <> [].
Proof. destruct tokens; [discriminate|discriminate]. Qed.

Lemma switch_token_iter tokens k st :
  token_index st < List.length tokens ->
  token_index (Nat.iter k (switch_token tokens) st) =
  (token_index st + k) mod List.length tokens.
Proof.
  intros Hlt. induction k as [|k IH].
  - cbn. rewrite Nat.add_0_r. symmetry. now apply Nat.mod_small.
  - rewrite Nat.iter_succ. unfold switch_token at 1. cbn [token_index emit].
    rewrite IH, Nat.Div0.add_mod_idemp_l. f_equal. lia.
Qed.

(** C8: for a non-empty credential set of size N and an index i < N, one
    rotation sets the index to (i + 1) mod N; reading the current credential
    (and issuing a request with it) leaves the index unchanged; N rotations
    in a row bring the index back to i. *)
Theorem rotation_is_cyclic (tokens : list string) (st : state) :
  tokens <> [] ->
  token_index st < List.length tokens ->
  token_index (switch_token tokens st) =
    (token_index st + 1) mod List.length tokens /\
  snd (get_headers tokens st) = st /\
  (forall q variables,
     token_index (post tokens q variables st) = token_index st) /\
  token_index (Nat.iter (List.length tokens) (switch_token tokens) st) =
    token_index st.
Proof.
  intros Hne Hlt. repeat split.
  rewrite switch_token_iter by exact Hlt.
  replace (token_index st + List.length tokens)
    with (token_index st + 1 * List.length tokens) by lia.
  rewrite Nat.Div0.mod_add. now apply Nat.mod_small.
Qed.

Lemma rotation_is_cyclic_witness :
  token_index (Nat.iter 3 (switch_token ["t0"; "t1"; "t2"]) (mkState 1 [])) = 1.
Proof.
  apply (rotation_is_cyclic ["t0"; "t1"; "t2"] (mkState 1 [])).
  - discriminate.
  - cbn. lia.
Defined.

(** C4: over a listing of pages of state strings the counter returns the
    number of OPEN states and the number of CLOSED or MERGED states of all
    the pages; any other string adds to neither count and raises nothing;
    the page [OPEN, CLOSED, MERGED, OPEN] gives (2, 2). *)
Theorem states_are_classified (tokens : list string) (repo_name : json)
    (org_name : string) (st : state) :
  (forall pages last last_cursor rest,
     exists st',
       fetch_pull_requests_count tokens repo_name org_name
         (pr_listing pages last last_cursor ++ rest) st =
       Returned (count_open (all_states pages last),
                 count_closed_or_merged (all_states pages last)) st' rest) /\
  (forall s,
     s <> "OPEN"%string -> s <> "CLOSED"%string -> s <> "MERGED"%string ->
     observe (fetch_pull_requests_count tokens repo_name org_name
                [HttpJson (pr_page [s] JNull false)] st) = Value (0, 0) []) /\
  observe (fetch_pull_requests_count tokens repo_name org_name
             [HttpJson (pr_page ["OPEN"; "CLOSED"; "MERGED"; "OPEN"] JNull false)]
             st) = Value (2, 2) [].
Proof.
  split; [|split].
  - intros pages last last_cursor rest.
    destruct (pr_loop_listing tokens repo_name org_name pages last last_cursor rest
                (mkLocals 0 0 JNull) st) as (st' & H & _).
    exists st'. exact H.
  - intros s Ho Hc Hm.
    destruct (pr_loop_listing tokens repo_name org_name [] [s] JNull []
                (mkLocals 0 0 JNull) st) as (st' & H & _).
    unfold fetch_pull_requests_count. unfold pr_listing in H. cbn [map app] in H.
    rewrite H. cbn [observe]. unfold all_states, count_open, count_closed_or_merged.
    cbn [map List.concat app filter].
    apply String.eqb_neq in Ho, Hc, Hm. now rewrite Ho, Hc, Hm.
  - reflexivity.
Qed.

(** C10, counterexample: an attempt at a page whose second node is null
    fails after the first state was counted; the attempt leaves open_count
    at 1, and the OPEN pull request of the page is counted twice once the
    page is fetched again. *)
Lemma counting_failure_is_not_atomic :
  pr_try ["t0"] (JStr "repo") "org"
    (HttpJson (pr_page_of [pr_node "OPEN"; JNull] JNull false))
    (mkLocals 0 0 JNull) (mkState 0 []) =
  Raise TypeError (mkLocals 1 0 JNull)
    (post ["t0"] PullRequestsQuery
       (pr_variables (JStr "repo") "org" JNull) (mkState 0 [])) /\
  observe (fetch_pull_requests_count ["t0"] (JStr "repo") "org"
             [HttpJson (pr_page_of [pr_node "OPEN"; JNull] JNull false);
              HttpJson (pr_page ["OPEN"] JNull false)] (mkState 0 [])) =
  Value (2, 0) [].
Proof. split; reflexivity. Qed.

(** C10, amended: in the pull-request counter an attempt that ends in a
    soft failure (an errors member in the body) or in a transport failure
    (the HTTP call raises) leaves open_count, closed_count and the cursor
    as they were before the attempt, both checks coming before any state is
    counted; such failed attempts do not change what the loop returns, and
    a page that is fetched after them is counted exactly once. *)
Theorem failed_attempts_are_atomic (tokens : list string) (repo_name : json)
    (org_name : string) (failures : list response) :
  Forall failed_attempt failures ->
  (forall r l st,
     In r failures ->
     exists st',
       pr_try tokens repo_name org_name r l st = Continue l st' \/
       exists e, pr_try tokens repo_name org_name r l st = Raise e l st') /\
  (forall rest l st,
     observe (pr_loop tokens repo_name org_name (failures ++ rest) l st) =
     observe (pr_loop tokens repo_name org_name rest l st)) /\
  (forall states end_cursor rest l st,
     observe (pr_loop tokens repo_name org_name
                (failures ++ HttpJson (pr_page states end_cursor false) :: rest)
                l st) =
     Value (open_count l + count_open states,
            closed_count l + count_closed_or_merged states) rest).
Proof.
  intros Hf.
  assert (Hskip : forall rest l st,
             observe (pr_loop tokens repo_name org_name (failures ++ rest) l st) =
             observe (pr_loop tokens repo_name org_name rest l st)).
  { induction Hf as [|r fs Hr _ IH]; intros rest l st; [reflexivity|].
    cbn [app].
    destruct (pr_loop_failed_attempt tokens repo_name org_name r (fs ++ rest) l st Hr)
      as [m ->].
    rewrite IH. apply pr_loop_observe. }
  split; [|split].
  - intros r l st Hin. rewrite Forall_forall in Hf.
    destruct (Hf r Hin) as [members errors H|e].
    + eexists. left. apply pr_try_soft. exact H.
    + eexists. right. exists e. reflexivity.
  - exact Hskip.
  - intros states end_cursor rest l st. rewrite Hskip.
    cbn [pr_loop]. rewrite pr_try_page. reflexivity.
Qed.

Lemma failed_attempts_are_atomic_witness :
  observe (pr_loop ["t0"; "t1"] (JStr "repo") "org"
             ([HttpJson (JObj [("errors", JArr [JStr "rate limited"])]);
               HttpRaises RequestException]
              ++ [HttpJson (pr_page ["OPEN"; "MERGED"] JNull false)])
             (mkLocals 3 4 (JStr "cursor")) (mkState 0 [])) =
  Value (3 + count_open ["OPEN"; "MERGED"],
         4 + count_closed_or_merged ["OPEN"; "MERGED"]) [].
Proof.
  apply (failed_attempts_are_atomic ["t0"; "t1"] (JStr "repo") "org"
           [HttpJson (JObj [("errors", JArr [JStr "rate limited"])]);
            HttpRaises RequestException]).
  repeat constructor. apply (soft_failure _ (JArr [JStr "rate limited"])).
  reflexivity.
Defined.

(** C2: the pull-request counter never raises; it returns only from an
    attempt whose page took the success path and reported no next page; an
    attempt that fails, softly, in transport or otherwise, is followed by
    one rotation and another attempt with the same cursor. *)
Theorem counter_only_exits_on_exhaustion (tokens : list string)
    (repo_name : json) (org_name : string) (responses : list response)
    (st : state) :
  (forall e st' left,
     fetch_pull_requests_count tokens repo_name org_name responses st <>
     Raised e st' left) /\
  (forall counts st' left,
     fetch_pull_requests_count tokens repo_name org_name responses st =
       Returned counts st' left ->
     exists consumed data,
       responses = consumed ++ HttpJson data :: left /\ exhaustion_page data) /\
  (forall r rest l s,
     failed_attempt r ->
     exists m,
       pr_loop tokens repo_name org_name (r :: rest) l s =
       pr_loop tokens repo_name org_name rest l
         (switch_token tokens
            (emit (LogError m)
               (post tokens PullRequestsQuery
                  (pr_variables repo_name org_name (cursor l)) s)))) /\
  (forall r rest l s e l' s',
     pr_try tokens repo_name org_name r l s = Raise e l' s' ->
     cursor l' = cursor l /\
     exists m,
       pr_loop tokens repo_name org_name (r :: rest) l s =
       pr_loop tokens repo_name org_name rest l'
         (switch_token tokens (emit (LogError m) s'))).
Proof.
  split; [|split; [|split]].
  - intros e st' left. apply pr_loop_never_raises.
  - intros counts st' left. apply pr_loop_returns_exhausted.
  - intros r rest l s. apply pr_loop_failed_attempt.
  - intros r rest l s e l' s' H. split.
    + exact (pr_try_raise_cursor _ _ _ _ _ _ _ _ _ H).
    + cbn [pr_loop]. rewrite H.
      destruct (pr_except_catches repo_name org_name e) as [m ->]. now exists m.
Qed.



(** C3: over a listing of K pages of which only the last reports no next
    page, the counter issues exactly K requests and stops there; so does
    the enumerator when no page before the last is empty; and on a page
    whose repository list is empty the enumerator stops with the rows it
    has, adding none and raising nothing. *)
Theorem listing_is_read_in_K_requests (tokens : list string) (org_name : string) :
  (forall repo_name pages last last_cursor rest st,
     exists counts st',
       fetch_pull_requests_count tokens repo_name org_name
         (pr_listing pages last last_cursor ++ rest) st =
       Returned counts st' rest /\
       posts PullRequestsQuery (trace st') =
         posts PullRequestsQuery (trace st) + S (List.length pages)) /\
  (forall pages last last_cursor rest supply extra st,
     forallb page_ok (map fst pages ++ [last]) = true ->
     List.length (List.concat (map fst pages ++ [last])) <= List.length supply ->
     exists rows st' pr_left,
       fetch_org_repos tokens org_name
         (org_listing pages last last_cursor ++ rest)
         (map final_pr_page supply ++ extra) st =
       Returned (rows, rest) st' pr_left /\
       posts RepositoriesQuery (trace st') =
         posts RepositoriesQuery (trace st) + S (List.length pages)) /\
  (forall end_cursor has_next rest pr l st,
     org_loop tokens org_name
       (HttpJson (org_page [] end_cursor has_next) :: rest) pr l st =
     Returned (repo_details l, rest)
       (emit (Print (NoRepositoriesFound org_name))
          (post tokens RepositoriesQuery
             (org_variables org_name (org_cursor l)) st)) pr).
Proof.
  split; [|split].
  - intros repo_name pages last last_cursor rest st.
    destruct (pr_loop_listing tokens repo_name org_name pages last last_cursor rest
                (mkLocals 0 0 JNull) st) as (st' & H & Hp & _).
    do 2 eexists. split; [exact H|exact Hp].
  - intros pages last last_cursor rest supply extra st Hok Hlen.
    unfold fetch_org_repos.
    destruct (org_loop_listing tokens org_name pages last last_cursor rest Hok
                supply extra (mkOrgLocals JNull [])
                (emit (Print (FetchingRepositories org_name)) st) Hlen)
      as (rows & st' & pr' & H & Hp).
    exists rows, st', pr'. split; [exact H|].
    rewrite Hp, posts_emit. cbn [is_post]. lia.
  - intros end_cursor has_next rest pr l st. cbn [org_loop].
    now rewrite org_try_page.
Qed.

Lemma listing_is_read_in_K_requests_witness :
  exists rows st' pr_left,
    fetch_org_repos ["t0"] "org"
      (org_listing [([JObj [("name", JStr "a")]; JNull], JStr "c1")]
         [JObj [("name", JStr "b")]] JNull ++ [])
      (map final_pr_page [["OPEN"]; ["CLOSED"]; []] ++ []) (mkState 0 []) =
    Returned (rows, []) st' pr_left /\
    posts RepositoriesQuery (trace st') =
      posts RepositoriesQuery (trace (mkState 0 [])) + 2.
Proof.
  apply (proj1 (proj2 (listing_is_read_in_K_requests ["t0"] "org"))
           [([JObj [("name", JStr "a")]; JNull], JStr "c1")]
           [JObj [("name", JStr "b")]] JNull [] [["OPEN"]; ["CLOSED"]; []] []
           (mkState 0 [])).
  - reflexivity.
  - cbn. lia.
Defined.

Lemma last_pusher_absent repo :
  absent_at last_pusher_path repo = true ->
  Field.last_pusher repo = Val (JStr "N/A").
Proof.
  unfold last_pusher_path, Field.last_pusher, Field.history.
  destruct repo as [| | | | |m0]; try discriminate.
  cbn [absent_at Py.get bind].
  destruct (Py.lookup "defaultBranchRef" m0) as [b|]; [|reflexivity].
  destruct b as [| | | | |m1]; try discriminate. cbn [absent_at Py.get bind].
  destruct (Py.lookup "target" m1) as [t|]; [|reflexivity].
  destruct t as [| | | | |m2]; try discriminate. cbn [absent_at Py.get bind].
  destruct (Py.lookup "history" m2) as [h|]; [|reflexivity].
  destruct h as [| | | | |m3]; try discriminate. cbn [absent_at Py.get bind].
  destruct (Py.lookup "nodes" m3) as [n|]; [|reflexivity].
  destruct n as [| | | |[|first items]|]; try discriminate.
  cbn [absent_at Py.getitem0 bind].
  destruct first as [| | | | |m4]; try discriminate. cbn [absent_at Py.get bind].
  destruct (Py.lookup "author" m4) as [a|]; [|reflexivity].
  destruct a as [| | | | |m5]; try discriminate. cbn [absent_at Py.get bind].
  destruct (Py.lookup "user" m5) as [u|]; [|reflexivity].
  destruct u as [| | | | |m6]; try discriminate. cbn [absent_at Py.get bind].
  destruct (Py.lookup "login" m6); [discriminate|reflexivity].
Qed.

Lemma total_count_absent key repo :
  absent_at [Key key; Key "totalCount"] repo = true ->
  Field.total_count key repo = Val (JNum 0).
Proof.
  unfold Field.total_count.
  destruct repo as [| | | | |m0]; try discriminate. cbn [absent_at Py.get bind].
  destruct (Py.lookup key m0) as [c|]; [|reflexivity].
  destruct c as [| | | | |m1]; try discriminate. cbn [absent_at Py.get bind].
  destruct (Py.lookup "totalCount" m1); [discriminate|reflexivity].
Qed.

(** C6, counterexample: the size of a record without [diskUsage] is the
    string N/A, not the number 0. *)
Lemma missing_size_is_not_zero :
  Field.disk_usage (JObj [("name", JStr "repo")]) = Val (JStr "N/A") /\
  Field.disk_usage (JObj [("name", JStr "repo")]) <> Val (JNum 0).
Proof. split; [reflexivity|discriminate]. Qed.

(** C6, amended: in a record (a JSON object) a member that is missing is
    replaced by its placeholder: N/A for the name, the default branch, the
    last pusher (whichever member of its path is missing), the two
    timestamps and also the size; 0 for the commit, issue, release and tag
    counts; the empty string for the languages; Public and No for the two
    flags.  A record without [defaultBranchRef] gets default branch N/A,
    0 commits and last pusher N/A, and normalizing a record raises nothing
    out of the per-record handler. *)
Theorem missing_members_get_placeholders (tokens : list string)
    (org_name : string) (members : list (string * json)) :
  let repo := JObj members in
  (Py.lookup "name" members = None -> Field.name repo = Val (JStr "N/A")) /\
  (Py.lookup "isPrivate" members = None ->
   Field.is_private repo = Val (JStr "Public")) /\
  (Py.lookup "diskUsage" members = None ->
   Field.disk_usage repo = Val (JStr "N/A")) /\
  (Py.lookup "defaultBranchRef" members = None ->
   Field.default_branch repo = Val (JStr "N/A") /\
   Field.total_commits repo = Val (JNum 0) /\
   Field.last_pusher repo = Val (JStr "N/A")) /\
  (absent_at [Key "defaultBranchRef"; Key "name"] repo = true ->
   Field.default_branch repo = Val (JStr "N/A")) /\
  (absent_at [Key "defaultBranchRef"; Key "target"; Key "history";
              Key "totalCount"] repo = true ->
   Field.total_commits repo = Val (JNum 0)) /\
  (absent_at last_pusher_path repo = true ->
   Field.last_pusher repo = Val (JStr "N/A")) /\
  (absent_at [Key "openIssues"; Key "totalCount"] repo = true ->
   Field.open_issues repo = Val (JNum 0)) /\
  (absent_at [Key "closedIssues"; Key "totalCount"] repo = true ->
   Field.closed_issues repo = Val (JNum 0)) /\
  (absent_at [Key "releases"; Key "totalCount"] repo = true ->
   Field.total_releases repo = Val (JNum 0)) /\
  (absent_at [Key "refs"; Key "totalCount"] repo = true ->
   Field.total_tags repo = Val (JNum 0)) /\
  (absent_at [Key "languages"; Key "nodes"] repo = true ->
   Field.languages repo = Val (JStr "")) /\
  (Py.lookup "pushedAt" members = None ->
   Field.last_pushed_at repo = Val (JStr "N/A")) /\
  (Py.lookup "updatedAt" members = None ->
   Field.last_updated_at repo = Val (JStr "N/A")) /\
  (Py.lookup "isArchived" members = None ->
   Field.is_archived repo = Val (JStr "No")) /\
  (forall pr details st e d st' pr_left,
     process_repo tokens org_name repo pr details st <>
     PageRaised e d st' pr_left).
Proof.
  cbv zeta. repeat split.
  - intros H. unfold Field.name. cbn [Py.get]. now rewrite H.
  - intros H. unfold Field.is_private. cbn [Py.get]. now rewrite H.
  - intros H. unfold Field.disk_usage. cbn [Py.get]. now rewrite H.
  - unfold Field.default_branch. cbn [Py.get]. now rewrite H.
  - unfold Field.total_commits, Field.history. cbn [Py.get]. now rewrite H.
  - apply last_pusher_absent. unfold last_pusher_path. cbn [absent_at].
    now rewrite H.
  - unfold Field.default_branch. cbn [absent_at Py.get bind].
    destruct (Py.lookup "defaultBranchRef" members) as [b|]; [|reflexivity].
    destruct b as [| | | | |m1]; try discriminate. cbn [absent_at Py.get bind].
    destruct (Py.lookup "name" m1); [discriminate|reflexivity].
  - unfold Field.total_commits, Field.history. cbn [absent_at Py.get bind].
    destruct (Py.lookup "defaultBranchRef" members) as [b|]; [|reflexivity].
    destruct b as [| | | | |m1]; try discriminate. cbn [absent_at Py.get bind].
    destruct (Py.lookup "target" m1) as [t|]; [|reflexivity].
    destruct t as [| | | | |m2]; try discriminate. cbn [absent_at Py.get bind].
    destruct (Py.lookup "history" m2) as [h|]; [|reflexivity].
    destruct h as [| | | | |m3]; try discriminate. cbn [absent_at Py.get bind].
    destruct (Py.lookup "totalCount" m3); [discriminate|reflexivity].
  - apply last_pusher_absent.
  - apply total_count_absent.
  - apply total_count_absent.
  - apply total_count_absent.
  - apply total_count_absent.
  - unfold Field.languages. cbn [absent_at Py.get bind].
    destruct (Py.lookup "languages" members) as [l|]; [|reflexivity].
    destruct l as [| | | | |m1]; try discriminate. cbn [absent_at Py.get bind].
    destruct (Py.lookup "nodes" m1); [discriminate|reflexivity].
  - intros H. unfold Field.last_pushed_at. cbn [Py.get]. now rewrite H.
  - intros H. unfold Field.last_updated_at. cbn [Py.get]. now rewrite H.
  - intros H. unfold Field.is_archived. cbn [Py.get]. now rewrite H.
  - intros pr details st e d st' pr_left Heq.
    pose proof (process_repo_cases tokens org_name (JObj members) pr details st)
      as H.
    rewrite Heq in H. destruct H as [_ H]. now elim (H members).
Qed.

Lemma missing_members_get_placeholders_witness :
  Field.default_branch (JObj [("name", JStr "repo")]) = Val (JStr "N/A") /\
  Field.total_commits (JObj [("name", JStr "repo")]) = Val (JNum 0) /\
  Field.last_pusher (JObj [("name", JStr "repo")]) = Val (JStr "N/A").
Proof.
  apply (missing_members_get_placeholders [] "org" [("name", JStr "repo")]).
  reflexivity.
Defined.

Lemma process_repos_object members more tokens org_name pr details st :
  process_repos tokens org_name (JObj members :: more) pr details st =
  match process_repo tokens org_name (JObj members) pr details st with
  | PageDone details' st' pr_left =>
      process_repos tokens org_name more pr_left details' st'
  | stopped => stopped
  end.
Proof. reflexivity. Qed.

(** C7: on a page of records (objects or null) a null entry is logged and
    skipped, and an entry whose normalization raises, before or after its
    pull requests are counted, is logged and skipped: the loop goes on with
    the next entry, every entry ends as one row or one log entry, and
    nothing is raised out of the loop or out of the enumerator. *)
Theorem records_fail_one_by_one (tokens : list string) (org_name : string)
    (repos : list json) :
  forallb is_record repos = true ->
  (forall pr details st,
     match process_repos tokens org_name repos pr details st with
     | PageRaised _ _ _ _ => False
     | PageBlocked _ => True
     | PageDone d st' _ =>
         exists added,
           d = details ++ added /\
           List.length added + skipped (trace st') =
             skipped (trace st) + List.length repos
     end) /\
  (forall supply extra details st,
     List.length repos <= List.length supply ->
     exists d st' pr_left,
       process_repos tokens org_name repos
         (map final_pr_page supply ++ extra) details st =
       PageDone d st' pr_left) /\
  (forall more pr details st,
     process_repos tokens org_name (JNull :: more) pr details st =
     process_repos tokens org_name more pr details
       (emit (LogError (EntryIsNone org_name)) st)) /\
  (forall members more pr details st e,
     fields_before (JObj members) = Exc e ->
     exists name,
       Field.name (JObj members) = Val name /\
       process_repos tokens org_name (JObj members :: more) pr details st =
       process_repos tokens org_name more pr details
         (emit (LogError (ErrorProcessing name org_name e)) st)) /\
  (forall members more pr details st before counts st' pr_left e,
     fields_before (JObj members) = Val before ->
     fetch_pull_requests_count tokens
       (fst (fst (fst (fst (fst before))))) org_name pr st =
       Returned counts st' pr_left ->
     fields_after (JObj members) = Exc e ->
     exists name,
       Field.name (JObj members) = Val name /\
       process_repos tokens org_name (JObj members :: more) pr details st =
       process_repos tokens org_name more pr_left details
         (emit (LogError (ErrorProcessing name org_name e)) st')) /\
  (forall responses pr st e st' left,
     fetch_org_repos tokens org_name responses pr st <> Raised e st' left).
Proof.
  intros Hrec. split; [|split; [|split; [|split; [|split]]]].
  - intros pr details st.
    pose proof (process_repos_cases tokens org_name repos pr details st) as H.
    destruct (process_repos tokens org_name repos pr details st)
      as [d s p|e d s p|s]; [| |exact I].
    + destruct H as (added & Hd & Hlen & _). now exists added.
    + destruct H as (_ & r & Hin & Hr).
      rewrite forallb_forall in Hrec. rewrite (Hrec r Hin) in Hr. discriminate.
  - intros supply extra details st Hlen.
    destruct (process_repos_supply tokens org_name repos Hrec supply extra
                details st Hlen) as (d & s & sup & H & _).
    do 3 eexists. exact H.
  - reflexivity.
  - intros members more pr details st e Hb.
    rewrite process_repos_object. unfold process_repo. rewrite Hb.
    unfold repo_except, Field.name. cbn [dispatch catches Py.get].
    destruct (Py.lookup "name" members); eexists; (split; reflexivity).
  - intros members more pr details st before [o c] st' pr_left e Hb Hc Ha.
    rewrite process_repos_object. unfold process_repo. rewrite Hb, Hc, Ha.
    unfold repo_except, Field.name. cbn [dispatch catches Py.get].
    destruct (Py.lookup "name" members); eexists; (split; reflexivity).
  - intros responses pr st e st' left. apply org_loop_never_raises.
Qed.

Lemma records_fail_one_by_one_witness :
  exists d st' pr_left,
    process_repos ["t0"] "org"
      [JNull; JObj [("name", JStr "bad"); ("defaultBranchRef", JNull)];
       JObj [("name", JStr "good")]]
      (map final_pr_page [["OPEN"]; []; []] ++ []) [] (mkState 0 []) =
    PageDone d st' pr_left.
Proof.
  apply (proj1 (proj2 (records_fail_one_by_one ["t0"] "org"
           [JNull; JObj [("name", JStr "bad"); ("defaultBranchRef", JNull)];
            JObj [("name", JStr "good")]] eq_refl))).
  cbn. lia.
Defined.

Lemma dict_to_list_repo_info before o c after :
  dict_to_list fieldnames (repo_info before o c after) =
  Val (map snd (repo_info before o c after)) /\
  map fst (repo_info before o c after) = fieldnames.
Proof.
  destruct before as [[[[[? ?] ?] ?] ?] ?], after as [[[[[[[? ?] ?] ?] ?] ?] ?] ?].
  split; reflexivity.
Qed.

Lemma writerows_repo_infos rows :
  Forall is_repo_info rows ->
  writerows fieldnames rows = (map (map snd) rows, None).
Proof.
  induction 1 as [|r rows (before & o & c & after & ->) _ IH]; [reflexivity|].
  cbn [writerows map].
  destruct (dict_to_list_repo_info before o c after) as [-> _]. now rewrite IH.
Qed.

(** C9: when the rows the enumerator returned are not empty and the file
    of the organization can be written, the driver ends with that file
    holding the header of the sixteen columns in the order of the schema
    and then one record per row, in the order the rows were appended, each
    holding the row's sixteen values in column order; when there is no row,
    the driver writes no file and prints that no data was fetched.  When
    the file cannot be opened, or a write fails, the OSError leaves the
    driver. *)
Theorem report_follows_the_schema (tokens : list string)
    (disk : string -> disk_answer) (org : string)
    (org_responses pr_responses : list response) (st0 : state)
    (rows : list row) (left : list response) (st' : state)
    (pr_left : list response) (fs : files) :
  let columns :=
    ["Repository Name"; "Visibility"; "Size (KB)"; "Default Branch";
     "Total Commits"; "Last Pusher"; "Open Pull Requests";
     "Closed Pull Requests"; "Open Issues"; "Closed Issues"; "Languages";
     "Total Releases"; "Total Tags"; "Last Pushed At"; "Last Updated At";
     "Archived"]%string in
  let csv_filename := (org ++ "_repo_details.csv")%string in
  let records := map JStr columns :: map (map snd) rows in
  fetch_org_repos tokens org org_responses pr_responses
    (emit (Print (ProcessingOrganization org)) st0) =
    Returned (rows, left) st' pr_left ->
  Forall (fun r => map fst r = columns) rows /\
  (rows = [] ->
   main_loop tokens disk [org] org_responses pr_responses fs st0 =
   MainDone fs (emit (Print (NoDataFetched org)) st') left pr_left) /\
  (rows <> [] -> disk csv_filename = Writable ->
   main_loop tokens disk [org] org_responses pr_responses fs st0 =
   MainDone ((csv_filename, records) :: fs)
     (emit (Print (DataWritten org csv_filename)) st') left pr_left) /\
  (forall more,
     rows = [] ->
     main_loop tokens disk (org :: more) org_responses pr_responses fs st0 =
     main_loop tokens disk more left pr_left fs
       (emit (Print (NoDataFetched org)) st')) /\
  (forall more,
     rows <> [] -> disk csv_filename = Writable ->
     main_loop tokens disk (org :: more) org_responses pr_responses fs st0 =
     main_loop tokens disk more left pr_left ((csv_filename, records) :: fs)
       (emit (Print (DataWritten org csv_filename)) st')) /\
  (forall more,
     rows <> [] -> disk csv_filename = OpenFails ->
     main_loop tokens disk (org :: more) org_responses pr_responses fs st0 =
     MainRaised OSError fs st') /\
  (forall more n,
     rows <> [] -> disk csv_filename = WriteFails n ->
     n < List.length records ->
     main_loop tokens disk (org :: more) org_responses pr_responses fs st0 =
     MainRaised OSError ((csv_filename, firstn n records) :: fs) st').
Proof.
  intros columns csv_filename records H.
  assert (Hgood : Forall (good_row tokens org) rows).
  { unfold fetch_org_repos in H. apply org_loop_rows in H; [exact H|constructor]. }
  assert (Hinfo : Forall is_repo_info rows).
  { rewrite Forall_forall in *. intros r Hr. now destruct (Hgood r Hr). }
  assert (Hwritten : writerows fieldnames rows = (map (map snd) rows, None))
    by apply (writerows_repo_infos _ Hinfo).
  assert (Hempty : forall more,
             rows = [] ->
             main_loop tokens disk (org :: more) org_responses pr_responses fs st0 =
             main_loop tokens disk more left pr_left fs
               (emit (Print (NoDataFetched org)) st')).
  { intros more ->. cbn [main_loop]. now rewrite H. }
  assert (Hfull : forall more,
             rows <> [] -> disk csv_filename = Writable ->
             main_loop tokens disk (org :: more) org_responses pr_responses fs st0 =
             main_loop tokens disk more left pr_left ((csv_filename, records) :: fs)
               (emit (Print (DataWritten org csv_filename)) st')).
  { intros more Hne Hdisk. cbn [main_loop]. rewrite H. unfold report.
    destruct rows as [|r rows']; [congruence|].
    fold csv_filename. now rewrite Hdisk, Hwritten. }
  split; [|split; [|split; [|split; [|split; [|split]]]]].
  - rewrite Forall_forall in *. intros r Hr.
    destruct (Hinfo r Hr) as (before & o & c & after & ->).
    now destruct (dict_to_list_repo_info before o c after).
  - intros Hnil. now rewrite (Hempty [] Hnil).
  - intros Hne Hdisk. now rewrite (Hfull [] Hne Hdisk).
  - exact Hempty.
  - exact Hfull.
  - intros more Hne Hdisk. cbn [main_loop]. rewrite H. unfold report.
    destruct rows as [|r rows']; [congruence|].
    fold csv_filename. now rewrite Hdisk.
  - intros more n Hne Hdisk Hn. cbn [main_loop]. rewrite H. unfold report.
    destruct rows as [|r rows']; [congruence|].
    fold csv_filename. rewrite Hdisk, Hwritten.
    apply Nat.ltb_lt in Hn. unfold records, columns in Hn |- *.
    unfold writeheader, fieldnames. now rewrite Hn.
Qed.

Lemma report_follows_the_schema_witness :
  exists rows st',
    rows <> [] /\
    Forall (fun r => map fst r = fieldnames) rows /\
    main_loop ["t0"] (fun _ => Writable) ["org"]
      [HttpJson (org_page [JObj [("name", JStr "a")]] JNull false)]
      [final_pr_page ["OPEN"; "MERGED"]] [] (mkState 0 []) =
    MainDone
      [("org_repo_details.csv"%string,
        map JStr fieldnames :: map (map snd) rows)]
      (emit (Print (DataWritten "org" "org_repo_details.csv")) st') [] [].
Proof.
  destruct (fetch_org_repos ["t0"] "org"
              [HttpJson (org_page [JObj [("name", JStr "a")]] JNull false)]
              [final_pr_page ["OPEN"; "MERGED"]]
              (emit (Print (ProcessingOrganization "org")) (mkState 0 [])))
    as [[rows left] st' pr_left|e st' pr_left|st'] eqn:H.
  - pose proof (report_follows_the_schema ["t0"] (fun _ => Writable) "org"
                  _ _ _ _ _ _ _ [] H) as (Hcols & _ & Hdone & _).
    vm_compute in H. injection H as <- <- <- <-.
    do 2 eexists.
    split; [|split; [exact Hcols|apply Hdone; [discriminate|reflexivity]]].
    discriminate.
  - vm_compute in H. discriminate.
  - vm_compute in H. discriminate.
Defined.

(** X1: an attempt that raises while the states of a page are counted (here
    on a null node) is retried with the counts reached so far: the states
    before the node that raised are counted again when the page is fetched
    again. *)
Theorem counting_failure_keeps_partial_counts (tokens : list string)
    (repo_name : json) (org_name : string) (states : list string)
    (end_cursor : json) (has_next : bool) (l : pr_locals) (st : state) :
  pr_try tokens repo_name org_name
    (HttpJson (pr_page_of (map pr_node states ++ [JNull]) end_cursor has_next))
    l st =
  Raise TypeError
    (mkLocals (open_count l + count_open states)
              (closed_count l + count_closed_or_merged states) (cursor l))
    (post tokens PullRequestsQuery
       (pr_variables repo_name org_name (cursor l)) st) /\
  observe (fetch_pull_requests_count tokens repo_name org_name
             [HttpJson (pr_page_of [pr_node "OPEN"; JNull] JNull false);
              HttpJson (pr_page ["OPEN"] JNull false)] st) = Value (2, 0) [].
Proof.
  split; [|reflexivity].
  unfold pr_try, pr_body.
  assert (Py.contains "errors"
            (pr_page_of (map pr_node states ++ [JNull]) end_cursor has_next) =
          Val false) as -> by reflexivity.
  assert ((p <- pull_requests_of
                  (pr_page_of (map pr_node states ++ [JNull]) end_cursor has_next) ;;
           n <- Py.getitem p "nodes" ;; Py.iter n) =
          Val (map pr_node states ++ [JNull])) as -> by reflexivity.
  assert (Hcount : forall o c,
             count_states (map pr_node states ++ [JNull]) o c =
             (o + count_open states, c + count_closed_or_merged states,
              Some TypeError)).
  { induction states as [|s states IH]; intros o c.
    - cbn. now rewrite !Nat.add_0_r.
    - cbn [map app]. rewrite count_states_cons.
      unfold count_open, count_closed_or_merged in *. cbn [filter].
      destruct (String.eqb s "CLOSED" || String.eqb s "MERGED") eqn:E.
      + assert (String.eqb s "OPEN" = false) as ->.
        { apply orb_true_iff in E.
          destruct E as [E|E]; apply String.eqb_eq in E; now subst s. }
        rewrite IH. cbn [List.length]. now rewrite Nat.add_succ_r.
      + destruct (String.eqb s "OPEN"); rewrite IH; cbn [List.length];
          rewrite ?Nat.add_succ_r; reflexivity. }
  now rewrite Hcount.
Qed.

(** * More of the program: invariants of every step *)

Section StepInvariants.

Variable tokens : list string.
Variable R : state -> state -> Prop.
Hypothesis HR : step_invariant tokens R.

Lemma pr_try_invariant repo_name org_name r l st :
  match pr_try tokens repo_name org_name r l st with
  | Raise e _ st' => R st' st
  | s => R (signal_state s) st
  end.
Proof.
  unfold pr_try.
  set (st1 := post tokens PullRequestsQuery _ st).
  assert (H1 : R st1 st) by apply (inv_post_pr _ _ HR).
  destruct r as [data|e]; [|exact H1].
  unfold pr_body.
  destruct (Py.contains "errors" data) as [[|]|]; [| |exact H1].
  - destruct (Py.getitem data "errors"); [|exact H1]. cbn [signal_state].
    eapply (inv_trans _ _ HR); [|exact H1]. now apply (inv_failure _ _ HR).
  - destruct (p <- pull_requests_of data;; n <- Py.getitem p "nodes";; Py.iter n);
      [|exact H1].
    destruct (count_states a (open_count l) (closed_count l)) as [[o c] [e1|]];
      [exact H1|].
    assert (H2 : R (emit (Print (FetchedPage repo_name o c)) st1) st).
    { eapply (inv_trans _ _ HR); [|exact H1]. now apply (inv_print _ _ HR). }
    destruct (p <- pull_requests_of data;; i <- Py.getitem p "pageInfo";;
              Py.getitem i "hasNextPage") as [h|]; [|exact H2].
    destruct (negb (Py.truthy h)); [exact H2|].
    destruct (p <- pull_requests_of data;; i <- Py.getitem p "pageInfo";;
              Py.getitem i "endCursor"); [|exact H2].
    cbn [signal_state]. eapply (inv_trans _ _ HR); [|exact H2].
    apply (inv_sleep _ _ HR).
Qed.

Lemma pr_except_is_failure repo_name org_name e m :
  pr_except repo_name org_name e = Some m -> is_failure_log (LogError m) = true.
Proof. destruct e; intros [= <-]; reflexivity. Qed.

Lemma pr_loop_invariant repo_name org_name responses :
  forall l st,
    R (outcome_state (pr_loop tokens repo_name org_name responses l st)) st.
Proof.
  induction responses as [|r rest IH]; intros l st; cbn [pr_loop].
  - apply (inv_refl _ _ HR).
  - pose proof (pr_try_invariant repo_name org_name r l st) as H.
    destruct (pr_try tokens repo_name org_name r l st) as [a s|a s|a s|e a s];
      cbn [signal_state] in H.
    + eapply (inv_trans _ _ HR); [apply IH|exact H].
    + exact H.
    + eapply (inv_trans _ _ HR); [apply IH|exact H].
    + destruct (pr_except repo_name org_name e) as [m|] eqn:Hm; [|exact H].
      eapply (inv_trans _ _ HR); [apply IH|].
      eapply (inv_trans _ _ HR); [|exact H].
      apply (inv_failure _ _ HR). exact (pr_except_is_failure _ _ _ _ Hm).
Qed.

Lemma repo_except_invariant org_name repo e details st pr :
  R (page_state (repo_except org_name repo e details st pr)) st.
Proof.
  unfold repo_except. cbn [dispatch catches].
  destruct (Py.get repo "name" (JStr "N/A")); cbn [page_state].
  - now apply (inv_skip _ _ HR).
  - apply (inv_refl _ _ HR).
Qed.

Lemma process_repo_invariant org_name repo pr details st :
  R (page_state (process_repo tokens org_name repo pr details st)) st.
Proof.
  unfold process_repo.
  destruct (fields_before repo) as [before|e]; [|apply repo_except_invariant].
  set (name := fst (fst (fst (fst (fst before))))).
  pose proof (pr_loop_invariant name org_name pr (mkLocals 0 0 JNull) st) as H.
  unfold fetch_pull_requests_count.
  destruct (pr_loop tokens name org_name pr (mkLocals 0 0 JNull) st)
    as [[o c] s p|e s p|s]; cbn [outcome_state] in H.
  - destruct (fields_after repo); [exact H|].
    eapply (inv_trans _ _ HR); [apply repo_except_invariant|exact H].
  - eapply (inv_trans _ _ HR); [apply repo_except_invariant|exact H].
  - exact H.
Qed.

Lemma process_repos_invariant org_name repos :
  forall pr details st,
    R (page_state (process_repos tokens org_name repos pr details st)) st.
Proof.
  induction repos as [|repo more IH]; intros pr details st.
  - apply (inv_refl _ _ HR).
  - assert (Hnull : repo = JNull \/ repo <> JNull)
      by (destruct repo; (now left) || (right; discriminate)).
    destruct Hnull as [->|Hnn].
    + rewrite process_repos_null.
      eapply (inv_trans _ _ HR); [apply IH|]. now apply (inv_skip _ _ HR).
    + rewrite (process_repos_cons _ _ _ _ _ _ _ Hnn).
      pose proof (process_repo_invariant org_name repo pr details st) as H.
      destruct (process_repo tokens org_name repo pr details st);
        cbn [page_state] in H; try exact H.
      eapply (inv_trans _ _ HR); [apply IH|exact H].
Qed.

Hypothesis HR_post_org : forall variables st,
  R (post tokens RepositoriesQuery variables st) st.

Lemma org_try_invariant org_name r pr l st :
  R (org_signal_state (org_try tokens org_name r pr l st)) st.
Proof.
  unfold org_try.
  set (st1 := post tokens RepositoriesQuery _ st).
  assert (H1 : R st1 st) by apply HR_post_org.
  destruct r as [data|e]; [|exact H1].
  unfold org_body.
  destruct (Py.contains "errors" data) as [[|]|]; [| |exact H1].
  - destruct (Py.getitem data "errors"); [|exact H1]. cbn [org_signal_state].
    eapply (inv_trans _ _ HR); [|exact H1]. now apply (inv_failure _ _ HR).
  - destruct (page_fields data) as [[[repos has_next] end_cursor]|]; [|exact H1].
    destruct (negb (Py.truthy repos)).
    + cbn [org_signal_state]. eapply (inv_trans _ _ HR); [|exact H1].
      now apply (inv_print _ _ HR).
    + destruct (Py.iter repos) as [items|]; [|exact H1].
      pose proof (process_repos_invariant org_name items pr (repo_details l) st1)
        as H.
      destruct (process_repos tokens org_name items pr (repo_details l) st1);
        cbn [page_state] in H; cbn [org_signal_state].
      * destruct (negb (Py.truthy has_next)); cbn [org_signal_state].
        -- eapply (inv_trans _ _ HR); [exact H|exact H1].
        -- eapply (inv_trans _ _ HR); [apply (inv_sleep _ _ HR)|].
           eapply (inv_trans _ _ HR); [exact H|exact H1].
      * eapply (inv_trans _ _ HR); [exact H|exact H1].
      * eapply (inv_trans _ _ HR); [exact H|exact H1].
Qed.

Lemma org_except_is_failure org_name e m :
  org_except org_name e = Some m -> is_failure_log (LogError m) = true.
Proof. destruct e; intros [= <-]; reflexivity. Qed.

Lemma org_loop_invariant org_name responses :
  forall pr l st,
    R (outcome_state (org_loop tokens org_name responses pr l st)) st.
Proof.
  induction responses as [|r rest IH]; intros pr l st; cbn [org_loop].
  - apply (inv_refl _ _ HR).
  - pose proof (org_try_invariant org_name r pr l st) as H.
    destruct (org_try tokens org_name r pr l st) as [a s p|a s p|a s p|e a s p|s];
      cbn [org_signal_state outcome_state] in *.
    + eapply (inv_trans _ _ HR); [apply IH|exact H].
    + exact H.
    + eapply (inv_trans _ _ HR); [apply IH|exact H].
    + destruct (org_except org_name e) as [m|] eqn:Hm; [|exact H].
      eapply (inv_trans _ _ HR); [apply IH|].
      eapply (inv_trans _ _ HR); [|exact H].
      apply (inv_failure _ _ HR). exact (org_except_is_failure _ _ _ Hm).
    + exact H.
Qed.

Lemma report_invariant disk org repos fs st :
  R (snd (fst (report disk org repos fs st))) st.
Proof.
  unfold report. destruct repos as [|r repos].
  - cbn [fst snd]. now apply (inv_print _ _ HR).
  - destruct (disk _) as [|n|]; [apply (inv_refl _ _ HR)| |];
      destruct (writerows fieldnames (r :: repos)) as [written [e|]];
      try destruct (Nat.ltb n _); cbn [fst snd];
      (apply (inv_refl _ _ HR) || now apply (inv_print _ _ HR)).
Qed.

Lemma main_loop_invariant disk orgs :
  forall org_responses pr_responses fs st,
    R (main_state (main_loop tokens disk orgs org_responses pr_responses fs st))
      st.
Proof.
  induction orgs as [|org more IH]; intros org_responses pr_responses fs st;
    cbn [main_loop].
  - apply (inv_refl _ _ HR).
  - set (st0 := emit (Print (ProcessingOrganization org)) st).
    assert (H0 : R st0 st) by now apply (inv_print _ _ HR).
    pose proof (org_loop_invariant org org_responses pr_responses
                  (mkOrgLocals JNull [])
                  (emit (Print (FetchingRepositories org)) st0)) as H.
    unfold fetch_org_repos.
    destruct (org_loop tokens org org_responses pr_responses _ _)
      as [[repos left] s p|e s p|s]; cbn [outcome_state main_state] in *.
    + pose proof (report_invariant disk org repos fs s) as Hr.
      destruct (report disk org repos fs s) as [[fs' s'] [e|]];
        cbn [fst snd] in Hr;
        cbn [main_state].
      * eapply (inv_trans _ _ HR); [exact Hr|].
        eapply (inv_trans _ _ HR); [exact H|].
        eapply (inv_trans _ _ HR); [|exact H0]. now apply (inv_print _ _ HR).
      * eapply (inv_trans _ _ HR); [apply IH|].
        eapply (inv_trans _ _ HR); [exact Hr|].
        eapply (inv_trans _ _ HR); [exact H|].
        eapply (inv_trans _ _ HR); [|exact H0]. now apply (inv_print _ _ HR).
    + eapply (inv_trans _ _ HR); [exact H|].
      eapply (inv_trans _ _ HR); [|exact H0]. now apply (inv_print _ _ HR).
    + eapply (inv_trans _ _ HR); [exact H|].
      eapply (inv_trans _ _ HR); [|exact H0]. now apply (inv_print _ _ HR).
Qed.

End StepInvariants.

Lemma count_events_app f t1 t2 :
  count_events f (t1 ++ t2) = count_events f t1 + count_events f t2.
Proof. unfold count_events. now rewrite filter_app, length_app. Qed.

Lemma balanced_emit tokens e st :
  is_failure_log e = false -> is_rotation e = false ->
  balanced tokens (emit e st) st.
Proof.
  intros Hf Hr. exists [e], 0. unfold count_events. cbn [filter trace emit].
  rewrite Hf, Hr. repeat split.
Qed.

Lemma balanced_invariant tokens : step_invariant tokens (balanced tokens).
Proof.
  constructor.
  - intros st. exists [], 0. rewrite app_nil_r. repeat split.
  - intros st1 st2 st3 (a2 & k2 & H2 & F2 & S2 & I2) (a1 & k1 & H1 & F1 & S1 & I1).
    exists (a1 ++ a2), (k2 + k1). rewrite !count_events_app, H2, H1, I2, I1.
    rewrite app_assoc, Nat.iter_add. repeat split; lia.
  - intros variables st. now apply balanced_emit.
  - intros m st Hm. now apply balanced_emit.
  - intros st. now apply balanced_emit.
  - intros m st Hm. apply balanced_emit; [|reflexivity].
    destruct m; (reflexivity || discriminate).
  - intros m st Hm.
    exists [LogError m;
            Print (SwitchedToToken ((token_index st + 1) mod List.length tokens))],
           1.
    unfold count_events. cbn [filter is_rotation]. rewrite Hm.
    unfold switch_token, emit. cbn [trace token_index].
    rewrite <- app_assoc. repeat split.
Qed.

Lemma quiet_emit e st :
  is_post RepositoriesQuery e = false -> quiet (emit e st) st.
Proof. intros H. exists [e]. cbn. now rewrite H. Qed.

Lemma quiet_invariant tokens : step_invariant tokens quiet.
Proof.
  constructor.
  - intros st. exists []. now rewrite app_nil_r.
  - intros st1 st2 st3 (a2 & H2 & F2) (a1 & H1 & F1).
    exists (a1 ++ a2). rewrite H2, H1, app_assoc, forallb_app, F1, F2. now split.
  - intros variables st. now apply quiet_emit.
  - intros m st _. now apply quiet_emit.
  - intros st. now apply quiet_emit.
  - intros m st _. now apply quiet_emit.
  - intros m st _.
    exists [LogError m;
            Print (SwitchedToToken ((token_index st + 1) mod List.length tokens))].
    unfold switch_token, emit. cbn [trace]. rewrite <- app_assoc. now split.
Qed.

Lemma keeps_range_invariant tokens : step_invariant tokens (keeps_range tokens).
Proof.
  constructor; unfold keeps_range; try (intros; assumption).
  - intros st1 st2 st3 H32 H21 H. auto.
  - intros m st _ H. unfold switch_token. cbn [token_index emit].
    apply Nat.mod_upper_bound. lia.
Qed.

Lemma keeps_range_post_org tokens variables st :
  keeps_range tokens (post tokens RepositoriesQuery variables st) st.
Proof. unfold keeps_range. intros H. exact H. Qed.

Lemma balanced_post_org tokens variables st :
  balanced tokens (post tokens RepositoriesQuery variables st) st.
Proof. now apply balanced_emit. Qed.

(** X2: credentials rotate exactly once for each fetch failure that is
    logged and at no other time: over a run of the counter, of the
    enumerator or of the driver, the trace grows by as many failure log
    entries as rotations, and the token index ends as the initial index
    rotated that many times. *)
Theorem rotations_match_failures (tokens : list string) :
  (forall repo_name org_name responses st,
     balanced tokens
       (outcome_state
          (fetch_pull_requests_count tokens repo_name org_name responses st))
       st) /\
  (forall org_name responses pr_responses st,
     balanced tokens
       (outcome_state (fetch_org_repos tokens org_name responses pr_responses st))
       st) /\
  (forall disk orgs responses pr_responses fs st,
     balanced tokens
       (main_state (main_loop tokens disk orgs responses pr_responses fs st))
       st).
Proof.
  pose proof (balanced_invariant tokens) as HR.
  split; [|split].
  - intros. apply pr_loop_invariant. exact HR.
  - intros. unfold fetch_org_repos.
    eapply (inv_trans _ _ HR);
      [apply org_loop_invariant; [exact HR|apply balanced_post_org]|].
    now apply balanced_emit.
  - intros. apply main_loop_invariant; [exact HR|apply balanced_post_org].
Qed.

(** X3: when the token index is below the number of tokens it is still
    below it after any run of the counter, of the enumerator or of the
    driver, so [GITHUB_TOKENS[token_index]] is always defined. *)
Theorem token_index_stays_in_range (tokens : list string) (st : state) :
  token_index st < List.length tokens ->
  (forall repo_name org_name responses,
     token_index
       (outcome_state
          (fetch_pull_requests_count tokens repo_name org_name responses st))
     < List.length tokens) /\
  (forall org_name responses pr_responses,
     token_index
       (outcome_state (fetch_org_repos tokens org_name responses pr_responses st))
     < List.length tokens) /\
  (forall disk orgs responses pr_responses fs,
     token_index
       (main_state (main_loop tokens disk orgs responses pr_responses fs st))
     < List.length tokens).
Proof.
  intros Hlt. pose proof (keeps_range_invariant tokens) as HR.
  split; [|split].
  - intros. now apply (pr_loop_invariant tokens _ HR).
  - intros. unfold fetch_org_repos.
    now apply (org_loop_invariant tokens _ HR (keeps_range_post_org tokens)).
  - intros.
    now apply (main_loop_invariant tokens _ HR (keeps_range_post_org tokens)).
Qed.

Lemma token_index_stays_in_range_witness :
  token_index
    (outcome_state
       (fetch_pull_requests_count ["t0"; "t1"] (JStr "repo") "org"
          [HttpRaises RequestException; HttpRaises RequestException;
           HttpRaises ValueError] (mkState 1 []))) < 2.
Proof.
  apply (token_index_stays_in_range ["t0"; "t1"] (mkState 1 [])).
  cbn. lia.
Defined.

Lemma cursors_app q t1 t2 : cursors q (t1 ++ t2) = cursors q t1 ++ cursors q t2.
Proof.
  induction t1 as [|e t1 IH]; [reflexivity|].
  cbn [app cursors]. destruct e; try exact IH.
  destruct (is_post q _); [cbn [app]; now f_equal|exact IH].
Qed.

Lemma cursors_emit q e st :
  cursors q (trace (emit e st)) = cursors q (trace st) ++ cursors q [e].
Proof. unfold emit. cbn [trace]. apply cursors_app. Qed.

Lemma cursors_quiet st' st :
  quiet st' st ->
  cursors RepositoriesQuery (trace st') = cursors RepositoriesQuery (trace st).
Proof.
  intros (added & -> & F). rewrite cursors_app.
  assert (cursors RepositoriesQuery added = []) as ->.
  { induction added as [|e added IH]; [reflexivity|].
    cbn [forallb] in F. apply andb_true_iff in F as [He F].
    cbn [cursors]. destruct e; try now apply IH.
    apply negb_true_iff in He. rewrite He. now apply IH. }
  apply app_nil_r.
Qed.

Lemma cursors_post q q' variables tokens st :
  cursors q (trace (post tokens q' variables st)) =
  cursors q (trace st) ++
  (if is_post q (Post [] q' variables) then [cursor_of variables] else []).
Proof.
  unfold post, get_headers. rewrite cursors_emit. reflexivity.
Qed.

(** The cursors the counter sends over a listing. *)
Lemma pr_loop_cursors tokens repo_name org_name pages last last_cursor rest :
  forall l st,
  exists counts st',
    pr_loop tokens repo_name org_name
      (pr_listing pages last last_cursor ++ rest) l st =
      Returned counts st' rest /\
    cursors PullRequestsQuery (trace st') =
      cursors PullRequestsQuery (trace st) ++ cursor l :: map snd pages.
Proof.
  unfold pr_listing.
  induction pages as [|[states c] pages IH]; intros l st;
    cbn [map app pr_loop fst snd]; rewrite pr_try_page; cbv zeta.
  - do 2 eexists. split; [reflexivity|].
    rewrite cursors_emit, cursors_post. cbn [is_post cursors].
    now rewrite app_nil_r.
  - edestruct IH as (counts & st' & Hrun & Hc). rewrite Hrun.
    exists counts, st'. split; [reflexivity|].
    rewrite Hc, !cursors_emit, cursors_post. cbn [is_post cursors cursor].
    rewrite !app_nil_r, <- app_assoc. reflexivity.
Qed.

(** The cursors the enumerator sends over a listing, and what becomes of
    the entries of its pages. *)
Lemma org_loop_listing_cursors tokens org_name pages last last_cursor rest :
  forallb page_ok (map fst pages ++ [last]) = true ->
  forall supply extra l st,
    List.length (List.concat (map fst pages ++ [last])) <= List.length supply ->
    exists added st' pr',
      org_loop tokens org_name (org_listing pages last last_cursor ++ rest)
        (map final_pr_page supply ++ extra) l st =
      Returned (repo_details l ++ added, rest) st' pr' /\
      cursors RepositoriesQuery (trace st') =
        cursors RepositoriesQuery (trace st) ++ org_cursor l :: map snd pages /\
      List.length added + skipped (trace st') =
        skipped (trace st) + List.length (List.concat (map fst pages ++ [last])).
Proof.
  unfold org_listing.
  induction pages as [|[repos c] pages IH]; intros Hok supply extra l st Hlen;
    cbn [map app fst snd forallb List.concat] in *;
    apply andb_true_iff in Hok as [Hpage Hok]; cbn [org_loop];
    rewrite org_try_page; cbv zeta.
  - destruct last as [|repo more]; [discriminate|].
    unfold page_ok in Hpage. rewrite app_nil_r in Hlen |- *.
    set (st1 := post tokens RepositoriesQuery _ st).
    destruct (process_repos_supply tokens org_name (repo :: more) Hpage supply
                extra (repo_details l) st1 Hlen) as (d & s & sup & Hrun & _).
    pose proof (process_repos_cases tokens org_name (repo :: more)
                  (map final_pr_page supply ++ extra) (repo_details l) st1) as Hc.
    pose proof (process_repos_invariant tokens quiet (quiet_invariant tokens)
                  org_name (repo :: more) (map final_pr_page supply ++ extra)
                  (repo_details l) st1) as Hq.
    rewrite Hrun in Hc, Hq |- *. cbn [page_state] in Hq.
    destruct Hc as (added & -> & Hacc & _).
    exists added. do 2 eexists. split; [reflexivity|].
    rewrite (cursors_quiet _ _ Hq). subst st1. rewrite cursors_post.
    cbn [is_post cursor_of org_variables Py.lookup]. split; [reflexivity|].
    rewrite Hacc. unfold post, get_headers. rewrite skipped_emit.
    cbn [is_skip]. lia.
  - destruct repos as [|repo more]; [discriminate|].
    unfold page_ok in Hpage. rewrite length_app in Hlen |- *.
    set (st1 := post tokens RepositoriesQuery _ st).
    destruct (process_repos_supply tokens org_name (repo :: more) Hpage supply
                extra (repo_details l) st1) as (d & s & sup & Hrun & Hsup); [lia|].
    pose proof (process_repos_cases tokens org_name (repo :: more)
                  (map final_pr_page supply ++ extra) (repo_details l) st1) as Hc.
    pose proof (process_repos_invariant tokens quiet (quiet_invariant tokens)
                  org_name (repo :: more) (map final_pr_page supply ++ extra)
                  (repo_details l) st1) as Hq.
    rewrite Hrun in Hc, Hq |- *. cbn [page_state] in Hq.
    destruct Hc as (added & -> & Hacc & _).
    destruct (IH Hok sup extra (mkOrgLocals c (repo_details l ++ added))
                (emit Sleep s)) as (added' & st' & pr' & Hloop & Hcur & Hacc');
      [lia|].
    exists (added ++ added'), st', pr'. cbn [repo_details org_cursor] in *.
    rewrite app_assoc. split; [exact Hloop|].
    rewrite Hcur, cursors_emit, (cursors_quiet _ _ Hq). subst st1.
    rewrite cursors_post. cbn [is_post cursor_of org_variables Py.lookup cursors].
    rewrite app_nil_r, <- app_assoc. split; [reflexivity|].
    rewrite skipped_emit in Hacc'. cbn [is_skip] in Hacc'.
    unfold post, get_headers in Hacc. rewrite skipped_emit in Hacc.
    cbn [is_skip] in Hacc. rewrite length_app. lia.
Qed.

(** X4: over a listing the requests carry, as cursor, null for the first
    page and then the endCursor of the page before: the counter and the
    enumerator ask for each page once, in order. *)
Theorem cursors_follow_the_pages (tokens : list string) (org_name : string) :
  (forall repo_name pages last last_cursor rest st,
     exists counts st',
       fetch_pull_requests_count tokens repo_name org_name
         (pr_listing pages last last_cursor ++ rest) st =
       Returned counts st' rest /\
       cursors PullRequestsQuery (trace st') =
         cursors PullRequestsQuery (trace st) ++ JNull :: map snd pages) /\
  (forall pages last last_cursor rest supply extra st,
     forallb page_ok (map fst pages ++ [last]) = true ->
     List.length (List.concat (map fst pages ++ [last])) <= List.length supply ->
     exists rows st' pr_left,
       fetch_org_repos tokens org_name
         (org_listing pages last last_cursor ++ rest)
         (map final_pr_page supply ++ extra) st =
       Returned (rows, rest) st' pr_left /\
       cursors RepositoriesQuery (trace st') =
         cursors RepositoriesQuery (trace st) ++ JNull :: map snd pages).
Proof.
  split.
  - intros. apply (pr_loop_cursors tokens repo_name org_name pages last
                     last_cursor rest (mkLocals 0 0 JNull) st).
  - intros pages last last_cursor rest supply extra st Hok Hlen.
    unfold fetch_org_repos.
    destruct (org_loop_listing_cursors tokens org_name pages last last_cursor
                rest Hok supply extra (mkOrgLocals JNull [])
                (emit (Print (FetchingRepositories org_name)) st) Hlen)
      as (added & st' & pr' & H & Hc & _).
    exists added, st', pr'. split; [exact H|].
    rewrite Hc, cursors_emit. cbn [cursors]. now rewrite app_nil_r.
Qed.

Lemma cursors_follow_the_pages_witness :
  exists rows st' pr_left,
    fetch_org_repos ["t0"] "org"
      (org_listing [([JObj [("name", JStr "a")]], JStr "c1");
                    ([JNull], JStr "c2")]
         [JObj [("name", JStr "b")]] JNull ++ [])
      (map final_pr_page [["OPEN"]; []; []] ++ []) (mkState 0 []) =
    Returned (rows, []) st' pr_left /\
    cursors RepositoriesQuery (trace st') =
      cursors RepositoriesQuery (trace (mkState 0 [])) ++
      JNull :: map snd [([JObj [("name", JStr "a")]], JStr "c1");
                        ([JNull], JStr "c2")].
Proof.
  apply (proj2 (cursors_follow_the_pages ["t0"] "org")
           [([JObj [("name", JStr "a")]], JStr "c1"); ([JNull], JStr "c2")]
           [JObj [("name", JStr "b")]] JNull [] [["OPEN"]; []; []] []
           (mkState 0 [])).
  - reflexivity.
  - cbn. lia.
Defined.

(** X5: over a listing of pages of records every entry ends as exactly one
    row or one skip entry of the log: the rows returned and the skip
    entries logged add up to the number of entries of all the pages. *)
Theorem every_entry_is_accounted_for (tokens : list string) (org_name : string)
    (pages : list (list json * json)) (last : list json) (last_cursor : json)
    (rest : list response) (supply : list (list string))
    (extra : list response) (st : state) :
  forallb page_ok (map fst pages ++ [last]) = true ->
  List.length (List.concat (map fst pages ++ [last])) <= List.length supply ->
  exists rows st' pr_left,
    fetch_org_repos tokens org_name (org_listing pages last last_cursor ++ rest)
      (map final_pr_page supply ++ extra) st =
    Returned (rows, rest) st' pr_left /\
    List.length rows + skipped (trace st') =
      skipped (trace st) + List.length (List.concat (map fst pages ++ [last])).
Proof.
  intros Hok Hlen. unfold fetch_org_repos.
  destruct (org_loop_listing_cursors tokens org_name pages last last_cursor
              rest Hok supply extra (mkOrgLocals JNull [])
              (emit (Print (FetchingRepositories org_name)) st) Hlen)
    as (added & st' & pr' & H & _ & Hacc).
  exists added, st', pr'. split; [exact H|].
  rewrite skipped_emit in Hacc. cbn [is_skip] in Hacc. lia.
Qed.

Lemma every_entry_is_accounted_for_witness :
  exists rows st' pr_left,
    fetch_org_repos ["t0"] "org"
      (org_listing [([JObj [("name", JStr "a")]; JNull], JStr "c1")]
         [JObj [("name", JStr "b"); ("defaultBranchRef", JNull)]] JNull ++ [])
      (map final_pr_page [["OPEN"]; []; []] ++ []) (mkState 0 []) =
    Returned (rows, []) st' pr_left /\
    List.length rows + skipped (trace st') =
      skipped (trace (mkState 0 [])) + 3.
Proof.
  apply (every_entry_is_accounted_for ["t0"] "org"
           [([JObj [("name", JStr "a")]; JNull], JStr "c1")]
           [JObj [("name", JStr "b"); ("defaultBranchRef", JNull)]] JNull []
           [["OPEN"]; []; []] [] (mkState 0 [])).
  - reflexivity.
  - cbn. lia.
Defined.

Lemma org_loop_failed_attempt tokens org_name r rest pr l st :
  failed_attempt r ->
  exists m,
    org_loop tokens org_name (r :: rest) pr l st =
    org_loop tokens org_name rest pr l
      (switch_token tokens
         (emit (LogError m)
            (post tokens RepositoriesQuery
               (org_variables org_name (org_cursor l)) st))).
Proof.
  intros [members errors H|e]; cbn [org_loop].
  - rewrite (org_try_soft _ _ _ _ _ _ _ H). eexists. reflexivity.
  - unfold org_try. destruct (org_except_catches org_name e) as [m ->].
    now exists m.
Qed.

(** X6: in the enumerator an attempt that ends in a soft failure or in a
    transport failure leaves the cursor and the rows as they were; an
    exception of the HTTP call is logged as a network error when it is a
    RequestException and as an unexpected error otherwise, followed by one
    rotation; failed attempts do not change what the enumerator returns. *)
Theorem enumerator_failures_are_transparent (tokens : list string)
    (org_name : string) (failures : list response) :
  Forall failed_attempt failures ->
  (forall r pr l st,
     In r failures ->
     exists st',
       org_try tokens org_name r pr l st = OrgContinue l st' pr \/
       exists e, org_try tokens org_name r pr l st = OrgRaise e l st' pr) /\
  (forall e rest pr l st,
     org_loop tokens org_name (HttpRaises e :: rest) pr l st =
     org_loop tokens org_name rest pr l
       (switch_token tokens
          (emit (LogError (match e with
                           | RequestException => NetworkErrorOrg org_name e
                           | _ => UnexpectedErrorOrg org_name e
                           end))
             (post tokens RepositoriesQuery
                (org_variables org_name (org_cursor l)) st)))) /\
  (forall rest pr l st,
     observe (org_loop tokens org_name (failures ++ rest) pr l st) =
     observe (org_loop tokens org_name rest pr l st)).
Proof.
  intros Hf. split; [|split].
  - intros r pr l st Hin. rewrite Forall_forall in Hf.
    destruct (Hf r Hin) as [members errors H|e].
    + eexists. left. apply org_try_soft. exact H.
    + eexists. right. exists e. reflexivity.
  - intros e rest pr l st. cbn [org_loop]. unfold org_try. now destruct e.
  - induction Hf as [|r fs Hr _ IH]; intros rest pr l st; [reflexivity|].
    cbn [app].
    destruct (org_loop_failed_attempt tokens org_name r (fs ++ rest) pr l st Hr)
      as [m ->].
    rewrite IH. apply org_loop_observe.
Qed.

Lemma enumerator_failures_are_transparent_witness :
  observe (org_loop ["t0"; "t1"] "org"
             ([HttpRaises RequestException;
               HttpJson (JObj [("errors", JStr "rate limit")])]
              ++ [HttpJson (org_page [] JNull false)])
             [] (mkOrgLocals JNull []) (mkState 0 [])) =
  observe (org_loop ["t0"; "t1"] "org" [HttpJson (org_page [] JNull false)]
             [] (mkOrgLocals JNull []) (mkState 0 [])).
Proof.
  apply (enumerator_failures_are_transparent ["t0"; "t1"] "org"
           [HttpRaises RequestException;
            HttpJson (JObj [("errors", JStr "rate limit")])]).
  repeat constructor. apply (soft_failure _ (JStr "rate limit")). reflexivity.
Defined.

(** X7: an entry of a page that is neither an object nor null makes the
    handler of the entry raise in turn (it reads [repo.get] again): the
    entries after it are not processed, and the outer handler logs an
    unexpected AttributeError, rotates, and goes on with the cursor already
    moved to the page's endCursor, whatever the page said of a next page. *)
Theorem non_record_entry_aborts_the_page (tokens : list string)
    (org_name : string) (entry : json) (more : list json) :
  is_record entry = false ->
  (forall pr details st,
     process_repos tokens org_name (entry :: more) pr details st =
     PageRaised AttributeError details st pr) /\
  (forall end_cursor has_next rest pr l st,
     org_loop tokens org_name
       (HttpJson (org_page (entry :: more) end_cursor has_next) :: rest) pr l st =
     org_loop tokens org_name rest pr
       (mkOrgLocals end_cursor (repo_details l))
       (switch_token tokens
          (emit (LogError (UnexpectedErrorOrg org_name AttributeError))
             (post tokens RepositoriesQuery
                (org_variables org_name (org_cursor l)) st)))).
Proof.
  intros Hrec.
  assert (Hpage : forall pr details st,
             process_repos tokens org_name (entry :: more) pr details st =
             PageRaised AttributeError details st pr).
  { intros pr details st. destruct entry; try discriminate; reflexivity. }
  split; [exact Hpage|].
  intros end_cursor has_next rest pr l st. cbn [org_loop].
  rewrite org_try_page. cbv zeta. now rewrite Hpage.
Qed.

Lemma non_record_entry_aborts_the_page_witness :
  process_repos ["t0"] "org" [JStr "oops"; JObj [("name", JStr "a")]]
    [final_pr_page []] [] (mkState 0 []) =
  PageRaised AttributeError [] (mkState 0 []) [final_pr_page []].
Proof.
  apply (non_record_entry_aborts_the_page ["t0"] "org" (JStr "oops")
           [JObj [("name", JStr "a")]]).
  reflexivity.
Defined.

(** X8: a record whose [defaultBranchRef] is present but is not an object
    (null for an empty repository), or whose commit history has an empty
    [nodes] list, is skipped before any pull request is asked for: the
    AttributeError, or the IndexError, is logged under the record's name
    and the loop goes on with the next entry. *)
Theorem record_without_branch_is_skipped (tokens : list string)
    (org_name : string) (members : list (string * json)) (more : list json)
    (pr : list response) (details : list row) (st : state) :
  (forall v,
     Py.lookup "defaultBranchRef" members = Some v ->
     is_object v = false ->
     exists name,
       Field.name (JObj members) = Val name /\
       process_repos tokens org_name (JObj members :: more) pr details st =
       process_repos tokens org_name more pr details
         (emit (LogError (ErrorProcessing name org_name AttributeError)) st)) /\
  (forall h,
     Field.history (JObj members) = Val (JObj h) ->
     Py.lookup "nodes" h = Some (JArr []) ->
     exists name,
       Field.name (JObj members) = Val name /\
       process_repos tokens org_name (JObj members :: more) pr details st =
       process_repos tokens org_name more pr details
         (emit (LogError (ErrorProcessing name org_name IndexError)) st)).
Proof.
  split.
  - intros v Hv Hobj.
    assert (Hb : fields_before (JObj members) = Exc AttributeError).
    { unfold fields_before, Field.name, Field.is_private, Field.disk_usage,
        Field.default_branch.
      cbn [Py.get]. rewrite Hv.
      destruct (Py.lookup "name" members), (Py.lookup "isPrivate" members),
        (Py.lookup "diskUsage" members); cbn [bind];
        destruct v; try discriminate; reflexivity. }
    rewrite process_repos_object. unfold process_repo. rewrite Hb.
    unfold repo_except, Field.name. cbn [dispatch catches Py.get].
    destruct (Py.lookup "name" members); eexists; (split; reflexivity).
  - intros h Hh Hn.
    assert (Hb : fields_before (JObj members) = Exc IndexError).
    { unfold fields_before, Field.name, Field.is_private, Field.disk_usage,
        Field.default_branch, Field.total_commits, Field.last_pusher.
      rewrite Hh. unfold Field.history in Hh. cbn [Py.get bind] in *.
      rewrite Hn. cbn [Py.getitem0 bind].
      destruct (Py.lookup "name" members), (Py.lookup "isPrivate" members),
        (Py.lookup "diskUsage" members), (Py.lookup "defaultBranchRef" members)
        as [[| | | | |b]|]; cbn [bind Py.get] in *; try discriminate;
        try destruct (Py.lookup "name" b); try destruct (Py.lookup "totalCount" h);
        reflexivity. }
    rewrite process_repos_object. unfold process_repo. rewrite Hb.
    unfold repo_except, Field.name. cbn [dispatch catches Py.get].
    destruct (Py.lookup "name" members); eexists; (split; reflexivity).
Qed.

Lemma record_without_branch_is_skipped_witness :
  exists name,
    Field.name (JObj [("name", JStr "empty"); ("defaultBranchRef", JNull)]) =
      Val name /\
    process_repos ["t0"] "org"
      [JObj [("name", JStr "empty"); ("defaultBranchRef", JNull)]]
      [] [] (mkState 0 []) =
    process_repos ["t0"] "org" [] [] []
      (emit (LogError (ErrorProcessing name "org" AttributeError)) (mkState 0 [])).
Proof.
  apply (proj1 (record_without_branch_is_skipped ["t0"] "org"
                  [("name", JStr "empty"); ("defaultBranchRef", JNull)]
                  [] [] [] (mkState 0 [])) JNull); reflexivity.
Defined.





(** X10: an organization whose first page of repositories is empty (or has
    no list of repositories at all) gets no file: the enumerator prints
    that no repository was found, the driver prints that no data was
    fetched, and the run goes on with the next organization. *)
Theorem organization_without_repositories_writes_no_file (tokens : list string)
    (disk : string -> disk_answer)
    (org : string) (more : list string) (data : json) (rest pr : list response)
    (fs : files) (st : state) (repos has_next end_cursor : json) :
  Py.contains "errors" data = Val false ->
  page_fields data = Val (repos, has_next, end_cursor) ->
  Py.truthy repos = false ->
  main_loop tokens disk (org :: more) (HttpJson data :: rest) pr fs st =
  main_loop tokens disk more rest pr fs
    (emit (Print (NoDataFetched org))
       (emit (Print (NoRepositoriesFound org))
          (post tokens RepositoriesQuery (org_variables org JNull)
             (emit (Print (FetchingRepositories org))
                (emit (Print (ProcessingOrganization org)) st))))).
Proof.
  intros Herr Hfields Hempty. cbn [main_loop].
  unfold fetch_org_repos. cbn [org_loop]. unfold org_try, org_body.
  rewrite Herr, Hfields, Hempty. reflexivity.
Qed.

Lemma organization_without_repositories_writes_no_file_witness :
  main_loop ["t0"] (fun _ => OpenFails) ["org"] [HttpJson (JObj [])] [] []
    (mkState 0 []) =
  main_loop ["t0"] (fun _ => OpenFails) [] [] [] []
    (emit (Print (NoDataFetched "org"))
       (emit (Print (NoRepositoriesFound "org"))
          (post ["t0"] RepositoriesQuery (org_variables "org" JNull)
             (emit (Print (FetchingRepositories "org"))
                (emit (Print (ProcessingOrganization "org")) (mkState 0 [])))))).
Proof.
  apply (organization_without_repositories_writes_no_file ["t0"]
           (fun _ => OpenFails) "org" []
           (JObj []) [] [] [] (mkState 0 []) (JArr []) (JBool false) JNull);
    reflexivity.
Defined.

Lemma language_names_nodes langs :
  Field.language_names (map lang_node langs) =
  Val (map (fun l => JStr (name_or_na l)) langs).
Proof.
  induction langs as [|l langs IH]; [reflexivity|].
  cbn [map Field.language_names]. rewrite IH. now destruct l.
Qed.

Lemma join_names names :
  Field.join (map JStr names) = Val (String.concat ", " names).
Proof.
  induction names as [|n names IH]; [reflexivity|].
  cbn [map Field.join String.concat].
  destruct names as [|n' names]; [reflexivity|].
  cbn [map] in *. rewrite IH. reflexivity.
Qed.

(** X11: the Languages field is the names of the language nodes in their
    order, separated by a comma and a space, with N/A for a node without a
    name. *)
Theorem languages_are_joined_in_order (members : list (string * json))
    (others : list (string * json)) (langs : list (option string)) :
  Py.lookup "languages" members =
    Some (JObj (("nodes", JArr (map lang_node langs)) :: others)) ->
  Field.languages (JObj members) =
  Val (JStr (String.concat ", " (map name_or_na langs))).
Proof.
  intros H. unfold Field.languages. cbn [Py.get]. rewrite H.
  cbn [bind Py.get Py.lookup]. change (String.eqb "nodes" "nodes") with true.
  cbv iota. cbn [bind Py.iter]. rewrite language_names_nodes. cbn [bind].
  rewrite <- (map_map name_or_na JStr), join_names. reflexivity.
Qed.

Lemma languages_are_joined_in_order_witness :
  Field.languages
    (JObj [("name", JStr "a");
           ("languages",
            JObj [("nodes", JArr (map lang_node [Some "Go"; None; Some "C"]))])]) =
  Val (JStr (String.concat ", " (map name_or_na [Some "Go"; None; Some "C"]))).
Proof.
  apply (languages_are_joined_in_order _ []). reflexivity.
Defined.


Lemma all_chars_lstrip p s :
  all_chars p s = true -> all_chars p (lstrip s) = true.
Proof.
  induction s as [|c s IH]; [reflexivity|]. cbn [lstrip all_chars].
  intros [Hc Hs]%andb_true_iff.
  destruct (is_space c); [now apply IH|]. cbn [all_chars]. now rewrite Hc, Hs.
Qed.

Lemma all_chars_rstrip p s :
  all_chars p s = true -> all_chars p (rstrip s) = true.
Proof.
  induction s as [|c s IH]; [reflexivity|]. cbn [rstrip all_chars].
  intros [Hc Hs]%andb_true_iff. specialize (IH Hs).
  destruct (rstrip s) as [|a r].
  - destruct (is_space c); [reflexivity|]. cbn [all_chars]. now rewrite Hc.
  - change (p c && all_chars p (String a r) = true). now rewrite Hc, IH.
Qed.

Lemma rstrip_idempotent s : rstrip (rstrip s) = rstrip s.
Proof.
  induction s as [|c s IH]; [reflexivity|]. cbn [rstrip].
  destruct (rstrip s) as [|a r] eqn:E.
  - destruct (is_space c) eqn:Hc; [reflexivity|]. cbn [rstrip]. now rewrite Hc.
  - change (rstrip (String c (String a r)))
      with (match rstrip (String a r) with
            | EmptyString =>
                if is_space c then EmptyString else String c EmptyString
            | String a' r' => String c (String a' r')
            end).
    now rewrite IH.
Qed.

Lemma lstrip_starts_clean s : starts_clean (lstrip s) = true.
Proof.
  induction s as [|c s IH]; [reflexivity|]. cbn [lstrip].
  destruct (is_space c) eqn:Hc; [exact IH|]. cbn [starts_clean]. now rewrite Hc.
Qed.

Lemma lstrip_of_clean s : starts_clean s = true -> lstrip s = s.
Proof.
  destruct s as [|c s]; [reflexivity|]. cbn [starts_clean lstrip].
  intros H%negb_true_iff. now rewrite H.
Qed.

Lemma rstrip_starts_clean s :
  starts_clean s = true -> starts_clean (rstrip s) = true.
Proof.
  destruct s as [|c s]; [reflexivity|]. cbn [starts_clean rstrip].
  intros H. destruct (rstrip s); [|exact H].
  apply negb_true_iff in H. rewrite H. cbn [starts_clean]. now rewrite H.
Qed.

Lemma strip_idempotent s : strip (strip s) = strip s.
Proof.
  unfold strip.
  rewrite (lstrip_of_clean (rstrip (lstrip s))).
  - apply rstrip_idempotent.
  - apply rstrip_starts_clean, lstrip_starts_clean.
Qed.

Lemma split_on_pieces sep q s :
  all_chars (fun c => q c || Ascii.eqb c sep) s = true ->
  forall piece, In piece (split_on sep s) ->
    all_chars (fun c => q c && negb (Ascii.eqb c sep)) piece = true.
Proof.
  induction s as [|c s IH]; cbn [split_on all_chars].
  - intros _ piece [<-|[]]. reflexivity.
  - intros [Hc Hs]%andb_true_iff piece. specialize (IH Hs).
    destruct (Ascii.eqb c sep) eqn:E.
    + intros [<-|Hin]; [reflexivity|now apply IH].
    + rewrite orb_false_r in Hc.
      destruct (split_on sep s) as [|p more].
      * intros [<-|[]]. cbn [all_chars]. now rewrite Hc, E.
      * intros [<-|Hin].
        -- cbn [all_chars]. rewrite Hc, E. cbn [negb andb].
           apply IH. now left.
        -- apply IH. now right.
Qed.

Lemma all_chars_impl (p q : ascii -> bool) s :
  (forall c, p c = true -> q c = true) ->
  all_chars p s = true -> all_chars q s = true.
Proof.
  intros H. induction s as [|c s IH]; [reflexivity|]. cbn [all_chars].
  intros [Hc Hs]%andb_true_iff. now rewrite (H c Hc), IH.
Qed.

Lemma all_chars_true s : all_chars (fun _ => true) s = true.
Proof. induction s as [|c s IH]; [reflexivity|exact IH]. Qed.

Lemma split_on_has_no_separator s piece :
  In piece (split_on "," s) -> no_comma piece = true.
Proof.
  intros Hin. unfold no_comma.
  apply (all_chars_impl (fun c => true && negb (Ascii.eqb c ","))); [auto|].
  apply (split_on_pieces "," (fun _ => true) s); [|exact Hin].
  apply (all_chars_impl (fun _ => true)); [auto|apply all_chars_true].
Qed.

Lemma lstrip_of_spaces s : all_chars is_space s = true -> lstrip s = ""%string.
Proof.
  induction s as [|c s IH]; [reflexivity|]. cbn [all_chars lstrip].
  intros [Hc Hs]%andb_true_iff. rewrite Hc. now apply IH.
Qed.

Lemma split_on_clean sep t :
  all_chars (fun c => negb (Ascii.eqb c sep)) t = true ->
  split_on sep t = [t].
Proof.
  induction t as [|c t IH]; [reflexivity|]. cbn [all_chars split_on].
  intros [Hc Ht]%andb_true_iff. apply negb_true_iff in Hc.
  now rewrite Hc, (IH Ht).
Qed.

Lemma split_on_append sep t rest :
  all_chars (fun c => negb (Ascii.eqb c sep)) t = true ->
  split_on sep (t ++ String sep rest) = t :: split_on sep rest.
Proof.
  induction t as [|c t IH]; cbn [all_chars split_on String.append].
  - intros _. now rewrite Ascii.eqb_refl.
  - intros [Hc Ht]%andb_true_iff. apply negb_true_iff in Hc.
    now rewrite Hc, (IH Ht).
Qed.

Lemma parse_list_entries value t :
  In t (parse_list value) -> clean t.
Proof.
  unfold parse_list. intros [Hin Hne]%filter_In.
  apply in_map_iff in Hin as (piece & <- & Hin).
  split; [|split].
  - apply negb_true_iff, String.eqb_neq in Hne. exact Hne.
  - apply strip_idempotent.
  - unfold strip, no_comma. apply all_chars_rstrip, all_chars_lstrip.
    exact (split_on_has_no_separator value piece Hin).
Qed.

Lemma parse_list_blank value :
  all_chars (fun c => is_space c || Ascii.eqb c ",") value = true ->
  parse_list value = [].
Proof.
  intros H. unfold parse_list.
  pose proof (split_on_pieces "," is_space value H) as Hp.
  induction (split_on "," value) as [|piece pieces IH]; [reflexivity|].
  cbn [map filter].
  assert (strip piece = ""%string) as ->.
  { unfold strip. rewrite lstrip_of_spaces; [reflexivity|].
    apply (all_chars_impl (fun c => is_space c && negb (Ascii.eqb c ","))).
    - now intros c [Hc _]%andb_true_iff.
    - apply Hp. now left. }
  cbn [String.eqb negb]. apply IH. intros p Hin. apply Hp. now right.
Qed.


(** X12: every entry the settings parser returns is not empty, holds no
    comma and has no white space at either end: empty items and items of
    white space are dropped, the others are stripped. *)
Theorem parsed_entries_are_clean (value : string) (t : string) :
  In t (parse_list value) ->
  t <> ""%string /\ strip t = t /\ no_comma t = true.
Proof. apply parse_list_entries. Qed.

Lemma parsed_entries_are_clean_witness :
  "tok b"%string <> ""%string /\ strip "tok b" = "tok b"%string /\
  no_comma "tok b" = true.
Proof.
  apply (parsed_entries_are_clean " tok-a ,, tok b ,"). vm_compute. auto.
Defined.

(** X13: parsing gives back the entries that were joined with commas, in
    their order, when every entry is not empty, holds no comma and has no
    white space at either end. *)
Theorem parse_list_round_trip (entries : list string) :
  Forall clean entries ->
  parse_list (String.concat "," entries) = entries.
Proof.
  intros Hclean.
  assert (Hsplit : entries <> [] ->
                   split_on "," (String.concat "," entries) = entries).
  { induction Hclean as [|t more (_ & _ & Hc) Hmore IH]; [congruence|].
    intros _. cbn [String.concat]. destruct more as [|t' more].
    - now apply split_on_clean.
    - change (("," ++ String.concat "," (t' :: more))%string)
        with (String "," (String.concat "," (t' :: more))).
      rewrite (split_on_append "," t _ Hc). f_equal. apply IH. discriminate. }
  unfold parse_list. destruct entries as [|t more]; [reflexivity|].
  rewrite Hsplit by discriminate.
  clear Hsplit. induction Hclean as [|x xs (Hne & Hs & _) _ IH]; [reflexivity|].
  cbn [map filter]. rewrite Hs.
  apply String.eqb_neq in Hne. rewrite Hne. cbn [negb]. now f_equal.
Qed.

Lemma parse_list_round_trip_witness :
  parse_list (String.concat "," ["ghp_one"; "ghp_two"; "t 3"]) =
  ["ghp_one"; "ghp_two"; "t 3"]%string.
Proof.
  apply (parse_list_round_trip ["ghp_one"; "ghp_two"; "t 3"]%string).
  repeat constructor; (discriminate || reflexivity).
Defined.

(** X14: the module loads only with a token, a server URL and an
    organization: a setting that is unset or blank (white space, and commas
    for the two lists) raises ValueError; when it loads, the tokens and the
    organizations are clean entries and the endpoint is the stripped URL
    followed by /graphql. *)
Theorem configuration_is_checked (tokens_env url_env orgs_env : option string) :
  (blank_list tokens_env = true ->
   load_configuration tokens_env url_env orgs_env = Exc ValueError) /\
  (blank_text url_env = true ->
   load_configuration tokens_env url_env orgs_env = Exc ValueError) /\
  (blank_list orgs_env = true ->
   load_configuration tokens_env url_env orgs_env = Exc ValueError) /\
  (forall tokens api_url org_names,
     load_configuration tokens_env url_env orgs_env =
       Val (tokens, api_url, org_names) ->
     tokens <> [] /\ Forall clean tokens /\
     org_names <> [] /\ Forall clean org_names /\
     strip (getenv url_env) <> ""%string /\
     api_url = (strip (getenv url_env) ++ "/graphql")%string).
Proof.
  unfold load_configuration, blank_list, blank_text. cbv zeta.
  split; [|split; [|split]].
  - intros H. now rewrite (parse_list_blank _ H).
  - intros H. unfold strip at 1. rewrite (lstrip_of_spaces _ H).
    cbn [rstrip validate_configuration String.eqb].
    now destruct (parse_list (getenv tokens_env)).
  - intros H. rewrite (parse_list_blank _ H).
    unfold validate_configuration.
    destruct (parse_list (getenv tokens_env)); [reflexivity|].
    now destruct (String.eqb (strip (getenv url_env)) "").
  - intros tokens api_url org_names.
    unfold validate_configuration.
    destruct (parse_list (getenv tokens_env)) as [|t ts] eqn:Ht; [discriminate|].
    destruct (String.eqb (strip (getenv url_env)) "") eqn:Hu; [discriminate|].
    destruct (parse_list (getenv orgs_env)) as [|o os] eqn:Ho; [discriminate|].
    cbn [bind]. intros [= <- <- <-].
    repeat split; try discriminate.
    + rewrite <- Ht. apply Forall_forall. intros x. apply parse_list_entries.
    + rewrite <- Ho. apply Forall_forall. intros x. apply parse_list_entries.
    + now apply String.eqb_neq.
Qed.

Lemma configuration_is_checked_witness :
  load_configuration (Some " , ") (Some "https://ghe.example") (Some "org") =
  Exc ValueError.
Proof.
  apply (proj1 (configuration_is_checked (Some " , ")
                  (Some "https://ghe.example") (Some "org"))).
  reflexivity.
Defined.

(** X15: a page of repositories without page information is read as the
    last page.  The enumerator makes one request, processes the entries of
    the page and nothing else, and returns what that processing gives: its
    rows, its final state and what it left of the pull-request queue; every
    entry of the page is a row or a logged skip. *)
Theorem page_without_page_info_is_the_last (tokens : list string)
    (org_name : string) (repos : list json) (rest : list response)
    (supply : list (list string)) (extra : list response) (st : state) :
  page_ok repos = true ->
  List.length repos <= List.length supply ->
  exists rows st' pr_left,
    process_repos tokens org_name repos (map final_pr_page supply ++ extra) []
      (post tokens RepositoriesQuery (org_variables org_name JNull)
         (emit (Print (FetchingRepositories org_name)) st)) =
    PageDone rows st' pr_left /\
    fetch_org_repos tokens org_name
      (HttpJson (org_page_without_info repos) :: rest)
      (map final_pr_page supply ++ extra) st =
    Returned (rows, rest) st' pr_left /\
    List.length rows + skipped (trace st') =
      skipped (trace st) + List.length repos /\
    posts RepositoriesQuery (trace st') =
      posts RepositoriesQuery (trace st) + 1.
Proof.
  intros Hok Hlen. destruct repos as [|repo more]; [discriminate|].
  unfold page_ok in Hok.
  unfold fetch_org_repos. cbn [org_loop]. unfold org_try, org_body.
  assert (Py.contains "errors" (org_page_without_info (repo :: more)) = Val false)
    as -> by reflexivity.
  assert (page_fields (org_page_without_info (repo :: more)) =
          Val (JArr (repo :: more), JBool false, JNull)) as -> by reflexivity.
  cbn [Py.truthy Py.iter negb repo_details org_cursor]. cbv zeta.
  set (st1 := post tokens RepositoriesQuery _ _).
  destruct (process_repos_supply tokens org_name (repo :: more) Hok supply extra
              [] st1 Hlen) as (d & s & sup & Hrun & _).
  pose proof (process_repos_cases tokens org_name (repo :: more)
                (map final_pr_page supply ++ extra) [] st1) as Hc.
  rewrite Hrun in Hc |- *.
  destruct Hc as (added & Hd & Hcount & Hposts & _). cbn [app] in Hd. subst d.
  exists added, s, (map final_pr_page sup ++ extra).
  split; [reflexivity|]. split; [reflexivity|]. split.
  - rewrite Hcount. subst st1. unfold post, get_headers.
    rewrite !skipped_emit. cbn [is_skip]. lia.
  - rewrite Hposts. subst st1. rewrite posts_post, posts_emit.
    cbn [is_post]. lia.
Qed.

Lemma page_without_page_info_is_the_last_witness :
  exists rows st' pr_left,
    process_repos ["t0"] "org" [JObj [("name", JStr "a")]]
      (map final_pr_page [["OPEN"]] ++ []) []
      (post ["t0"] RepositoriesQuery (org_variables "org" JNull)
         (emit (Print (FetchingRepositories "org")) (mkState 0 []))) =
    PageDone rows st' pr_left /\
    fetch_org_repos ["t0"] "org"
      (HttpJson (org_page_without_info [JObj [("name", JStr "a")]]) :: [])
      (map final_pr_page [["OPEN"]] ++ []) (mkState 0 []) =
    Returned (rows, []) st' pr_left /\
    List.length rows + skipped (trace st') =
      skipped (trace (mkState 0 [])) + List.length [JObj [("name", JStr "a")]] /\
    posts RepositoriesQuery (trace st') =
      posts RepositoriesQuery (trace (mkState 0 [])) + 1.
Proof.
  apply (page_without_page_info_is_the_last ["t0"] "org"
           [JObj [("name", JStr "a")]] [] [["OPEN"]] [] (mkState 0 [])).
  - reflexivity.
  - cbn. lia.
Defined.















